(** * The API client and the session provider of the clinic app

    A shallow embedding of [utils/api.ts] (class [ApiClient], the resource
    modules) and of the [AuthProvider] component (hydration, login,
    register, logout), followed by the properties of the specification
    that concern them.

    JavaScript values are a data type, promises are run to completion in
    program order (an [await] is a bind), a rejected promise and a thrown
    exception are the same outcome [Throw], and everything the program
    shares with its environment (credential store, network, console, React
    state) lives in one record that is threaded through. Every awaited
    operation settles, it resolves or rejects: a promise that stays pending
    for ever is not modelled, so what is proved of a call is proved of the
    calls that come back. *)

From Stdlib Require Import ZArith String Ascii List Bool Floats DecimalString.
From stdpp Require Import gmap strings.
Import ListNotations.
Local Open Scope string_scope.
Local Open Scope Z_scope.
Set Warnings "-register-all".

(** ** JavaScript values *)

(** What [response.json()] and [JSON.parse] produce, plus [undefined]. *)
Inductive value : Type :=
| VUndefined
| VNull
| VBool (b : bool)
| VNum (x : float)
| VStr (s : string)
| VArr (items : list value)
| VObj (props : list (string * value)).

(** ToBoolean: [undefined], [null], [false], [0], [-0], [NaN] and the empty
    string are falsy. *)
Definition truthy (v : value) : bool :=
  match v with
  | VUndefined | VNull => false
  | VBool b => b
  | VNum x => negb (PrimFloat.eqb x 0%float || PrimFloat.is_nan x)
  | VStr s => negb (String.eqb s "")
  | VArr _ | VObj _ => true
  end.

(** [a || b] on values. *)
Definition js_or (a b : value) : value := if truthy a then a else b.

Inductive error : Type :=
| JsError (message : value)      (* new Error(message) *)
| TypeError (what : string)      (* property of null/undefined, invalid URL *)
| SyntaxError                    (* malformed JSON *)
| NetworkError                   (* fetch rejected *)
| StoreError (what : string).    (* the credential store rejected *)

Inductive result (A : Type) : Type :=
| Ok (a : A)
| Throw (e : error).
Arguments Ok {A} a.
Arguments Throw {A} e.

Fixpoint assoc {A : Type} (k : string) (l : list (string * A)) : option A :=
  match l with
  | [] => None
  | (k', a) :: l' => if String.eqb k k' then Some a else assoc k l'
  end.

(** [v.k] for the property names the program reads ([success], [data],
    [message], [error], [user], [token]): none of them is defined on a
    prototype, so only an object's own properties can answer. *)
Definition get_prop (v : value) (k : string) : result value :=
  match v with
  | VUndefined | VNull =>
      Throw (TypeError ("Cannot read properties of null or undefined: " ++ k))
  | VObj props => Ok (default VUndefined (assoc k props))
  | _ => Ok VUndefined
  end.

(** ** Objects of type [Record<string, string>]

    Own properties are kept in the order [Object.entries] enumerates them:
    array indices in ascending numeric order first, then the other keys in
    the order they were created. *)

Definition Record_ : Type := list (string * string).

Definition digit_of (c : ascii) : option N :=
  let n := N_of_ascii c in
  if ((48 <=? n) && (n <=? 57))%N then Some (n - 48)%N else None.

Fixpoint digits_value (s : string) (acc : N) : option N :=
  match s with
  | EmptyString => Some acc
  | String c s' =>
      match digit_of c with
      | Some d => digits_value s' (acc * 10 + d)%N
      | None => None
      end
  end.

(** A canonical numeric string below 2^32 - 1. *)
Definition array_index (s : string) : option N :=
  match s with
  | EmptyString => None
  | String c s' =>
      if Ascii.eqb c "0" then
        match s' with EmptyString => Some 0%N | _ => None end
      else
        match digits_value s 0 with
        | Some n => if (n <? 2 ^ 32 - 1)%N then Some n else None
        | None => None
        end
  end.

Definition key_before (k k' : string) : bool :=
  match array_index k, array_index k' with
  | Some n, Some n' => (n <? n')%N
  | Some _, None => true
  | None, _ => false
  end.

Fixpoint rec_update (k v : string) (o : Record_) : Record_ :=
  match o with
  | [] => []
  | (k', v') :: o' =>
      if String.eqb k k' then (k, v) :: o' else (k', v') :: rec_update k v o'
  end.

Fixpoint rec_create (k v : string) (o : Record_) : Record_ :=
  match o with
  | [] => [(k, v)]
  | (k', v') :: o' =>
      if key_before k k' then (k, v) :: o else (k', v') :: rec_create k v o'
  end.

(** [o[k] = v] on an ordinary object. A name the object has of its own
    gets the new value where it stands; a name it has not is created,
    except [__proto__]: that assignment goes to the setter inherited from
    [Object.prototype], which ignores a string, so that no property comes
    of it. *)
Definition rec_set (k v : string) (o : Record_) : Record_ :=
  match assoc k o with
  | Some _ => rec_update k v o
  | None => if String.eqb k "__proto__" then o else rec_create k v o
  end.

(** The object literal [{k1: v1, ..., kn: vn}], every property written as
    [name: value]. A [__proto__: value] in it sets the prototype when the
    value is an object or [null] and does nothing for a string; either way
    it defines no property. *)
Definition rec_literal (kvs : list (string * string)) : Record_ :=
  fold_left (fun o kv => rec_set (fst kv) (snd kv) o) kvs [].

Definition Object_entries (o : Record_) : list (string * string) := o.

(** The order of enumeration, on the names: no name comes after one it
    has to precede, that is, no array index after a larger index or after
    a name that is not an index. *)
Fixpoint enumeration_ordered (names : list string) : Prop :=
  match names with
  | [] => True
  | k :: names' =>
      Forall (fun k' => key_before k' k = false) names'
      /\ enumeration_ordered names'
  end.


(** ** The environment and the component state *)

Record Request : Type := {
  req_url : string;
  req_method : string;
  req_headers : Record_;
  req_body : option string }.

(** A [Response] as far as [handleResponse] looks at it. [resp_json] is
    what [response.json()] resolves to, [None] when the body is not JSON. *)
Record Response : Type := {
  resp_status : Z;
  resp_content_type : option string;
  resp_json : option value }.

(** [response.ok]: the status is in the range 200-299. *)
Definition resp_ok (r : Response) : bool :=
  (200 <=? resp_status r) && (resp_status r <=? 299).

Inductive FetchOutcome : Type :=
| Rejects
| Resolves (r : Response).

Inductive StoreOp : Type := OpGet | OpSet | OpDelete.

Inductive event : Type :=
| EvFetch (req : Request)
| EvJson
| EvStoreFailed (op : StoreOp) (key : string)
| EvConsoleError (label : string) (e : error).

Record AuthState : Type := {
  user : value;
  token : value;
  isAuthenticated : bool }.

(** - [store]: the entries of the credential store;
    - [store_faults]: for each coming store operation, whether the platform
      makes it fail (none scheduled: it works);
    - [network]: the outcome of each coming [fetch] (none scheduled: the
      request is rejected);
    - [trace]: what has happened so far, oldest first;
    - [authState], [loading]: the two [useState] cells of [AuthProvider]. *)
Record World : Type := {
  store : gmap string string;
  store_faults : list bool;
  network : list FetchOutcome;
  trace : list event;
  authState : AuthState;
  loading : bool }.

Definition with_store (m : gmap string string) (w : World) : World :=
  {| store := m; store_faults := store_faults w; network := network w;
     trace := trace w; authState := authState w; loading := loading w |}.
Definition with_store_faults (fs : list bool) (w : World) : World :=
  {| store := store w; store_faults := fs; network := network w;
     trace := trace w; authState := authState w; loading := loading w |}.
Definition with_network (n : list FetchOutcome) (w : World) : World :=
  {| store := store w; store_faults := store_faults w; network := n;
     trace := trace w; authState := authState w; loading := loading w |}.
Definition log (e : event) (w : World) : World :=
  {| store := store w; store_faults := store_faults w; network := network w;
     trace := (trace w ++ [e])%list; authState := authState w; loading := loading w |}.
Definition with_authState (a : AuthState) (w : World) : World :=
  {| store := store w; store_faults := store_faults w; network := network w;
     trace := trace w; authState := a; loading := loading w |}.
Definition with_loading (b : bool) (w : World) : World :=
  {| store := store w; store_faults := store_faults w; network := network w;
     trace := trace w; authState := authState w; loading := b |}.

(** ** Asynchronous computations *)

Definition M (A : Type) : Type := World -> result A * World.

Definition ret {A} (a : A) : M A := fun w => (Ok a, w).
Definition throw {A} (e : error) : M A := fun w => (Throw e, w).
Definition bind {A B} (m : M A) (k : A -> M B) : M B :=
  fun w => match m w with
           | (Ok a, w') => k a w'
           | (Throw e, w') => (Throw e, w')
           end.
Definition lift {A} (r : result A) : M A := fun w => (r, w).

(** [try { m } catch (error) { h error }] *)
Definition try_catch {A} (m : M A) (h : error -> M A) : M A :=
  fun w => match m w with
           | (Ok a, w') => (Ok a, w')
           | (Throw e, w') => h e w'
           end.

(** [try { m } finally { f }] *)
Definition try_finally {A} (m : M A) (f : M unit) : M A :=
  fun w => match m w with
           | (r, w') => match f w' with
                        | (Ok _, w'') => (r, w'')
                        | (Throw e, w'') => (Throw e, w'')
                        end
           end.

Declare Scope js_scope.
Delimit Scope js_scope with js.
Notation "'let*' x ':=' m 'in' k" := (bind m (fun x => k))
  (at level 10, x name, m at level 100, k at level 200) : js_scope.
Local Open Scope js_scope.

Definition console_error (label : string) (e : error) : M unit :=
  fun w => (Ok tt, log (EvConsoleError label e) w).

Definition setAuthState (a : AuthState) : M unit :=
  fun w => (Ok tt, with_authState a w).

Definition setLoading (b : bool) : M unit :=
  fun w => (Ok tt, with_loading b w).

(** ** Platform functions

    [JSON.parse], [JSON.stringify], the URL parser behind [new URL(...)],
    the build-time environment and the secure storage underneath the
    credential store are the platform's, not the repository's: the
    development is parametric in them. *)

(** A parsed URL: everything up to the query, the query string ([None]
    when the URL has none), the list behind [searchParams], the fragment
    (with its [#], or empty). *)
Record URL : Type := {
  url_prefix : string;
  url_query : option string;
  url_params : list (string * string);
  url_hash : string }.

(** [SecureStorage_coerce]: the string the storage keeps when it is handed
    a value that is not a string, [None] when it refuses such a value. *)
Class Platform : Type := {
  JSON_parse : string -> option value;       (* [None]: SyntaxError *)
  JSON_stringify : value -> option string;   (* [None]: undefined *)
  URL_parse : string -> option URL;          (* [None]: TypeError *)
  EXPO_PUBLIC_API_URL : option string;
  SecureStorage_coerce : value -> option string }.

(** ** The secure credential store *)

Module SecureStorage.

(** Modelled from the spec: [utils/secure-storage] is not among the
    sources; its operations can fail (section 4.1). Whether the coming
    operation does is for the platform to say: the answer is read off
    [store_faults]. A failed operation leaves the entries as they were. *)
Definition attempt (op : StoreOp) (key : string) : M unit :=
  fun w => let w' := with_store_faults (tl (store_faults w)) w in
           if hd false (store_faults w)
           then (Throw (StoreError key), log (EvStoreFailed op key) w')
           else (Ok tt, w').

(** Modelled from the spec: [utils/secure-storage] is not among the
    sources. [get(key) -> value|absent]; a failure is surfaced to the
    caller. *)
Definition getItemAsync (key : string) : M (option string) :=
  let* _ := attempt OpGet key in
  fun w => (Ok (store w !! key), w).

(** Modelled from the spec: the store keeps strings, and a string is kept
    as it is. Section 4.1 does not say what becomes of another value: that
    is left to the platform. *)
Definition stored_text `{Platform} (v : value) : option string :=
  match v with
  | VStr s => Some s
  | _ => SecureStorage_coerce v
  end.

(** Modelled from the spec: [set(key, value) -> success|failure]. A value
    the platform refuses is a failure like any other, nothing being
    written. *)
Definition setItemAsync `{Platform} (key : string) (v : value) : M unit :=
  let* _ := attempt OpSet key in
  match stored_text v with
  | Some s => fun w => (Ok tt, with_store (<[key := s]> (store w)) w)
  | None => fun w => (Throw (StoreError key), log (EvStoreFailed OpSet key) w)
  end.

(** Modelled from the spec: [delete(key) -> success|failure]. *)
Definition deleteItemAsync (key : string) : M unit :=
  let* _ := attempt OpDelete key in
  fun w => (Ok tt, with_store (base.delete key (store w)) w).

End SecureStorage.

(** The value of the expression [JSON.stringify(v)]. *)
Definition stringified `{Platform} (v : value) : value :=
  match JSON_stringify v with
  | Some s => VStr s
  | None => VUndefined
  end.

(** *** application/x-www-form-urlencoded serialisation (URL standard) *)

Definition hex_digit (n : N) : ascii :=
  ascii_of_N (if (n <? 10)%N then 48 + n else 55 + n)%N.

Definition urlencode_byte (c : ascii) : string :=
  let n := N_of_ascii c in
  if ((48 <=? n) && (n <=? 57) || (65 <=? n) && (n <=? 90)
      || (97 <=? n) && (n <=? 122)
      || (n =? 42) || (n =? 45) || (n =? 46) || (n =? 95))%N
  then String c EmptyString
  else if (n =? 32)%N then "+"
  else String "%" (String (hex_digit (n / 16)) (String (hex_digit (n mod 16)) EmptyString)).

Fixpoint urlencode (s : string) : string :=
  match s with
  | EmptyString => EmptyString
  | String c s' => urlencode_byte c ++ urlencode s'
  end.

Fixpoint urlencoded_serialize (l : list (string * string)) : string :=
  match l with
  | [] => ""
  | [(k, v)] => urlencode k ++ "=" ++ urlencode v
  | (k, v) :: l' => urlencode k ++ "=" ++ urlencode v ++ "&" ++ urlencoded_serialize l'
  end.

(** [url.searchParams.append(k, v)]: the pair goes to the end of the list
    and the query is rewritten from the list. *)
Definition searchParams_append (k v : string) (u : URL) : URL :=
  let l := (url_params u ++ [(k, v)])%list in
  {| url_prefix := url_prefix u; url_query := Some (urlencoded_serialize l);
     url_params := l; url_hash := url_hash u |}.

(** [url.toString()] *)
Definition URL_toString (u : URL) : string :=
  url_prefix u
  ++ match url_query u with Some q => "?" ++ q | None => "" end
  ++ url_hash u.

(** [new URL(s)] *)
Definition URL_new `{Platform} (s : string) : M URL :=
  match URL_parse s with
  | Some u => ret u
  | None => throw (TypeError "Invalid URL")
  end.

(** [fetch(url, init)] *)
Definition fetch (req : Request) : M Response :=
  fun w => let w' := with_network (tl (network w)) (log (EvFetch req) w) in
           match hd Rejects (network w) with
           | Resolves r => (Ok r, w')
           | Rejects => (Throw NetworkError, w')
           end.

(** [response.json()] *)
Definition Response_json (r : Response) : M value :=
  fun w => (match resp_json r with Some v => Ok v | None => Throw SyntaxError end,
            log EvJson w).

(** ** [utils/api.ts]: the HTTP client core *)

(** [hay.includes(needle)] *)
Fixpoint includes (needle hay : string) : bool :=
  String.prefix needle hay
  || match hay with
     | EmptyString => false
     | String _ hay' => includes needle hay'
     end.

(** A status code inside a template literal. *)
Definition number_to_string (n : Z) : string :=
  NilZero.string_of_int (Z.to_int n).

Definition default_base_url : string := "http://192.168.0.187:3000/api".

(** [process.env.EXPO_PUBLIC_API_URL || 'http://192.168.0.187:3000/api'] *)
Definition API_BASE_URL `{Platform} : string :=
  match EXPO_PUBLIC_API_URL with
  | Some s => if String.eqb s "" then default_base_url else s
  | None => default_base_url
  end.

Module ApiClient.
Section Methods.
Context `{Platform}.

Record t : Type := { baseURL : string }.

Definition getAuthHeaders : M Record_ :=
  let* token := SecureStorage.getItemAsync "auth_token" in
  let headers := rec_literal [("Content-Type", "application/json")] in
  match token with
  | Some tok =>
      if negb (String.eqb tok "")
      then ret (rec_set "Authorization" ("Bearer " ++ tok) headers)
      else ret headers
  | None => ret headers
  end.

(** [contentType && contentType.includes('application/json')] *)
Definition declares_json (response : Response) : bool :=
  match resp_content_type response with
  | Some contentType =>
      negb (String.eqb contentType "") && includes "application/json" contentType
  | None => false
  end.

Definition handleResponse (response : Response) : M value :=
  if declares_json response then
    let* data := Response_json response in
    if negb (resp_ok response) then
      let* message := lift (get_prop data "message") in
      let* described :=
        (if truthy message then ret message else lift (get_prop data "error")) in
      throw (JsError (js_or described (VStr "Request failed")))
    else ret data
  else
    if negb (resp_ok response) then
      throw (JsError (VStr ("Request failed with status "
                            ++ number_to_string (resp_status response))))
    else ret (VObj [("success", VBool true); ("data", VNull)]).

Definition get (self : t) (endpoint : string) (params : option Record_) : M value :=
  let* url := URL_new (baseURL self ++ endpoint) in
  let url :=
    match params with
    | Some params =>
        fold_left (fun url kv => searchParams_append (fst kv) (snd kv) url)
                  (Object_entries params) url
    | None => url
    end in
  let* headers := getAuthHeaders in
  let* response :=
    fetch {| req_url := URL_toString url; req_method := "GET";
             req_headers := headers; req_body := None |} in
  handleResponse response.

(** [data ? JSON.stringify(data) : undefined] *)
Definition body_of (data : value) : option string :=
  if truthy data then JSON_stringify data else None.

Definition post (self : t) (endpoint : string) (data : value) : M value :=
  let* headers := getAuthHeaders in
  let* response :=
    fetch {| req_url := baseURL self ++ endpoint; req_method := "POST";
             req_headers := headers; req_body := body_of data |} in
  handleResponse response.

Definition put (self : t) (endpoint : string) (data : value) : M value :=
  let* headers := getAuthHeaders in
  let* response :=
    fetch {| req_url := baseURL self ++ endpoint; req_method := "PUT";
             req_headers := headers; req_body := body_of data |} in
  handleResponse response.

Definition delete (self : t) (endpoint : string) : M value :=
  let* headers := getAuthHeaders in
  let* response :=
    fetch {| req_url := baseURL self ++ endpoint; req_method := "DELETE";
             req_headers := headers; req_body := None |} in
  handleResponse response.

End Methods.
End ApiClient.

Definition apiClient `{Platform} : ApiClient.t := {| ApiClient.baseURL := API_BASE_URL |}.

(** ** The resource modules used below *)

Module authApi.
Section Calls.
Context `{Platform}.

Definition login (email password : string) : M value :=
  ApiClient.post apiClient "/auth/login"
    (VObj [("email", VStr email); ("password", VStr password)]).

Definition register (userData : value) : M value :=
  ApiClient.post apiClient "/auth/register" userData.

Definition getCurrentUser : M value :=
  ApiClient.get apiClient "/auth/me" None.

Definition logout : M value :=
  ApiClient.post apiClient "/auth/logout" VUndefined.

Definition refreshToken : M value :=
  ApiClient.post apiClient "/auth/refresh" VUndefined.

End Calls.
End authApi.

Module patientsApi.
Section Calls.
Context `{Platform}.

Definition getAll (params : option Record_) : M value :=
  ApiClient.get apiClient "/patients" params.

Definition getById (id : string) : M value :=
  ApiClient.get apiClient ("/patients/" ++ id) None.

Definition create (patientData : value) : M value :=
  ApiClient.post apiClient "/patients" patientData.

Definition update (id : string) (patientData : value) : M value :=
  ApiClient.put apiClient ("/patients/" ++ id) patientData.

Definition delete (id : string) : M value :=
  ApiClient.delete apiClient ("/patients/" ++ id).

Definition getMedicalHistory (id : string) : M value :=
  ApiClient.get apiClient ("/patients/" ++ id ++ "/medical-history") None.

Definition getMedications (id : string) : M value :=
  ApiClient.get apiClient ("/patients/" ++ id ++ "/medications") None.

End Calls.
End patientsApi.

Module appointmentsApi.
Section Calls.
Context `{Platform}.

Definition getAll (params : option Record_) : M value :=
  ApiClient.get apiClient "/appointments" params.

Definition getById (id : string) : M value :=
  ApiClient.get apiClient ("/appointments/" ++ id) None.

Definition create (appointmentData : value) : M value :=
  ApiClient.post apiClient "/appointments" appointmentData.

Definition update (id : string) (appointmentData : value) : M value :=
  ApiClient.put apiClient ("/appointments/" ++ id) appointmentData.

Definition delete (id : string) : M value :=
  ApiClient.delete apiClient ("/appointments/" ++ id).

Definition getDoctorAvailability (doctorId date : string) : M value :=
  ApiClient.get apiClient ("/appointments/doctor/" ++ doctorId ++ "/availability")
    (Some (rec_literal [("date", date)])).

End Calls.
End appointmentsApi.

Module dashboardApi.
Section Calls.
Context `{Platform}.

Definition getStats : M value :=
  ApiClient.get apiClient "/dashboard/stats" None.

Definition getRecentActivity (params : option Record_) : M value :=
  ApiClient.get apiClient "/dashboard/recent-activity" params.

End Calls.
End dashboardApi.

Module usersApi.
Section Calls.
Context `{Platform}.

Definition getAll (params : option Record_) : M value :=
  ApiClient.get apiClient "/users" params.

Definition getById (id : string) : M value :=
  ApiClient.get apiClient ("/users/" ++ id) None.

Definition getDoctors : M value :=
  ApiClient.get apiClient "/users/doctors" None.

Definition update (id : string) (userData : value) : M value :=
  ApiClient.put apiClient ("/users/" ++ id) userData.

Definition delete (id : string) : M value :=
  ApiClient.delete apiClient ("/users/" ++ id).

End Calls.
End usersApi.

(** ** [AuthProvider]: the session manager *)

Definition signed_out : AuthState :=
  {| user := VNull; token := VNull; isAuthenticated := false |}.

Module AuthProvider.
Section Component.
Context `{Platform}.

(** [response.success && response.data] as a condition *)
Definition success_with_data (response : value) : result bool :=
  match get_prop response "success" with
  | Ok success =>
      if truthy success then
        match get_prop response "data" with
        | Ok data => Ok (truthy data)
        | Throw e => Throw e
        end
      else Ok false
  | Throw e => Throw e
  end.

Definition clearAuth : M unit :=
  let* _ :=
    try_catch
      (let* _ := SecureStorage.deleteItemAsync "auth_token" in
       SecureStorage.deleteItemAsync "user_data")
      (fun error => console_error "Error clearing auth:" error) in
  setAuthState signed_out.

Definition loadStoredAuth : M unit :=
  try_finally
    (try_catch
       (let* token := SecureStorage.getItemAsync "auth_token" in
        let* userData := SecureStorage.getItemAsync "user_data" in
        match token, userData with
        | Some tok, Some ud =>
            if negb (String.eqb tok "") && negb (String.eqb ud "") then
              let* user :=
                (match JSON_parse ud with
                 | Some v => ret v
                 | None => throw SyntaxError
                 end) in
              try_catch
                (let* response := authApi.getCurrentUser in
                 let* valid := lift (success_with_data response) in
                 if valid then
                   let* data := lift (get_prop response "data") in
                   setAuthState {| user := data; token := VStr tok;
                                   isAuthenticated := true |}
                 else clearAuth)
                (fun error => clearAuth)
            else ret tt
        | _, _ => ret tt
        end)
       (fun error =>
          let* _ := console_error "Error loading stored auth:" error in
          clearAuth))
    (setLoading false).

(** The component is mounted: both state cells get their initial value
    and the effect runs [loadStoredAuth]. *)
Definition mount : M unit :=
  let* _ := setAuthState signed_out in
  let* _ := setLoading true in
  loadStoredAuth.

(** The [try] block of [login]. *)
Definition login_attempt (email password : string) : M bool :=
  let* response := authApi.login email password in
  let* accepted := lift (success_with_data response) in
  if accepted then
    let* data := lift (get_prop response "data") in
    let* user := lift (get_prop data "user") in
    let* token := lift (get_prop data "token") in
    let* _ := SecureStorage.setItemAsync "auth_token" token in
    let* _ := SecureStorage.setItemAsync "user_data" (stringified user) in
    let* _ := setAuthState {| user := user; token := token;
                              isAuthenticated := true |} in
    ret true
  else ret false.

Definition login (email password : string) : M bool :=
  try_catch
    (login_attempt email password)
    (fun error =>
       let* _ := console_error "Login error:" error in
       ret false).

(** The [try] block of [register]. *)
Definition register_attempt (userData : value) : M bool :=
  let* response := authApi.register userData in
  let* accepted := lift (success_with_data response) in
  if accepted then
    let* data := lift (get_prop response "data") in
    let* user := lift (get_prop data "user") in
    let* token := lift (get_prop data "token") in
    let* _ := SecureStorage.setItemAsync "auth_token" token in
    let* _ := SecureStorage.setItemAsync "user_data" (stringified user) in
    let* _ := setAuthState {| user := user; token := token;
                              isAuthenticated := true |} in
    ret true
  else ret false.

Definition register (userData : value) : M bool :=
  try_catch
    (register_attempt userData)
    (fun error =>
       let* _ := console_error "Registration error:" error in
       ret false).

Definition logout : M unit :=
  try_finally
    (try_catch
       (let* _ := authApi.logout in ret tt)
       (fun error => console_error "Logout API error:" error))
    clearAuth.

End Component.
End AuthProvider.

(** ** [app/(tabs)/patients.tsx]: what the patients screen computes *)

Module PatientsScreen.
Section Screen.
Context `{Platform}.

(** The [queryFn] of the patients query, for the text of the search box. *)
Definition queryFn (searchQuery : string) : M value :=
  let params :=
    if negb (String.eqb searchQuery "")
    then Some (rec_literal [("search", searchQuery)])
    else None in
  let* response := patientsApi.getAll params in
  ret response.

(** [patientsResponse?.data || []]; [patientsResponse] is [undefined] as
    long as the query has no result. *)
Definition patients (patientsResponse : value) : value :=
  js_or
    (match patientsResponse with
     | VUndefined | VNull => VUndefined
     | _ => match get_prop patientsResponse "data" with
            | Ok data => data
            | Throw _ => VUndefined
            end
     end)
    (VArr []).

(** The [mutationFn] of the delete mutation. *)
Definition mutationFn (patientId : string) : M value :=
  let* response := patientsApi.delete patientId in
  ret response.

(** An element of [patient.currentMedications], as far as the card reads
    it. *)
Record Medication : Type := { med_name : string; med_dosage : string }.

(** The texts of the medications section of a [PatientCard], top to
    bottom; nothing is rendered for an empty list. *)
Definition medications_section (currentMedications : list Medication)
  : list string :=
  if (0 <? length currentMedications)%nat then
    ("Current Medications:"
     :: map (fun med => "• " ++ med_name med ++ " - " ++ med_dosage med)
            (firstn 2 currentMedications))
    ++ (if (2 <? length currentMedications)%nat
        then ["+" ++ number_to_string
                       (Z.of_nat (length currentMedications) - 2) ++ " more"]
        else [])
  else [].

End Screen.
End PatientsScreen.

(** ** Observations on a run *)

(** The requests sent so far, oldest first. *)
Fixpoint requests (t : list event) : list Request :=
  match t with
  | [] => []
  | EvFetch req :: t' => req :: requests t'
  | _ :: t' => requests t'
  end.

(** The requests sent between two worlds of one run. *)
Definition issued (w w' : World) : list Request :=
  skipn (length (requests (trace w))) (requests (trace w')).

Definition is_store_failure (e : event) : bool :=
  match e with EvStoreFailed _ _ => true | _ => false end.

Definition is_delete_failure (e : event) : bool :=
  match e with EvStoreFailed OpDelete _ => true | _ => false end.

Fixpoint count_failures (t : list event) : nat :=
  match t with
  | [] => 0%nat
  | e :: t' => ((if is_store_failure e then 1 else 0) + count_failures t')%nat
  end.

(** How many store operations have failed so far. *)
Definition store_failures (w : World) : nat := count_failures (trace w).

(** Has a delete of the store failed so far? *)
Definition delete_failed (w : World) : bool :=
  List.existsb is_delete_failure (trace w).

(** What has been logged between two worlds of one run. *)
Definition events_since (w w' : World) : list event :=
  skipn (length (trace w)) (trace w').

(** Has a delete of the store failed between [w] and [w']? *)
Definition delete_failed_since (w w' : World) : bool :=
  List.existsb is_delete_failure (events_since w w').

(** The trace only ever gets longer. *)
Definition grows (w w' : World) : Prop :=
  exists t, trace w' = (trace w ++ t)%list.

Definition growing {A : Type} (m : M A) : Prop :=
  forall w, grows w (snd (m w)).

(** Token and user are stored together or not at all. *)
Definition paired (m : gmap string string) : Prop :=
  is_Some (m !! "auth_token") <-> is_Some (m !! "user_data").

(** What a computation leaves alone when it touches neither the React
    state nor the network. *)
Definition offline (w w' : World) : Prop :=
  authState w' = authState w /\ loading w' = loading w
  /\ network w' = network w /\ requests (trace w') = requests (trace w).

(** What a call of the client leaves alone: the store and the React
    state. Its one store operation is a read: the count of failures can
    only grow, and no delete fails. *)
Definition client_frame (w w' : World) : Prop :=
  store w' = store w /\ authState w' = authState w /\ loading w' = loading w
  /\ (store_failures w <= store_failures w')%nat
  /\ delete_failed w' = delete_failed w.

(** [m] keeps to that frame from every world. *)
Definition framed {A : Type} (m : M A) : Prop :=
  forall w, client_frame w (snd (m w)).

(** The world in which hydration calls [auth.getCurrentUser]: the state
    cells initialised, both reads of the store done. *)
Definition at_validation (w : World) : World :=
  with_store_faults (tl (tl (store_faults w)))
    (with_loading true (with_authState signed_out w)).

(** The [try] blocks of [login] and [register] are the same program after
    their first call. *)
Definition session_attempt `{Platform} (call : M value) : M bool :=
  let* response := call in
  let* accepted := lift (AuthProvider.success_with_data response) in
  if accepted then
    let* data := lift (get_prop response "data") in
    let* user := lift (get_prop data "user") in
    let* token := lift (get_prop data "token") in
    let* _ := SecureStorage.setItemAsync "auth_token" token in
    let* _ := SecureStorage.setItemAsync "user_data" (stringified user) in
    let* _ := setAuthState {| user := user; token := token;
                              isAuthenticated := true |} in
    ret true
  else ret false.

(** A success envelope whose data carries the user [u] and the token
    [tok]. *)
Definition grants (response u : value) (tok : string) : Prop :=
  exists props dprops,
    response = VObj props
    /\ assoc "success" props = Some (VBool true)
    /\ assoc "data" props = Some (VObj dprops)
    /\ assoc "user" dprops = Some u
    /\ assoc "token" dprops = Some (VStr tok).

(** The URL record of a string that is an absolute URL in normal form
    already, without query and fragment. *)
Definition plain_url (s : string) : URL :=
  {| url_prefix := s; url_query := None; url_params := []; url_hash := "" |}.

(** The query that [get] appends for the entries [l]. *)
Definition query_suffix (l : list (string * string)) : string :=
  match l with
  | [] => ""
  | _ => "?" ++ urlencoded_serialize l
  end.

(** The string of the URL [u] once the entries [l] have been appended to
    its parameters: they follow the parameters it had and come before its
    fragment; without entries the URL is as it was. *)
Definition with_query (l : list (string * string)) (u : URL) : string :=
  url_prefix u
  ++ match l with
     | [] => match url_query u with Some q => "?" ++ q | None => "" end
     | _ => "?" ++ urlencoded_serialize (url_params u ++ l)
     end
  ++ url_hash u.

(** The four operations of the client. *)
Inductive client_call : Type :=
| CallGet (endpoint : string) (params : option Record_)
| CallPost (endpoint : string) (data : value)
| CallPut (endpoint : string) (data : value)
| CallDelete (endpoint : string).

Definition perform `{Platform} (self : ApiClient.t) (c : client_call) : M value :=
  match c with
  | CallGet endpoint params => ApiClient.get self endpoint params
  | CallPost endpoint data => ApiClient.post self endpoint data
  | CallPut endpoint data => ApiClient.put self endpoint data
  | CallDelete endpoint => ApiClient.delete self endpoint
  end.

(** The headers [h] declare JSON and carry the bearer token of the store
    [st], if it has one that is not empty, and no authorization
    otherwise. *)
Definition carries_auth (st : gmap string string) (h : Record_) : Prop :=
  assoc "Content-Type" h = Some "application/json"
  /\ forall v, assoc "Authorization" h = Some v
               <-> exists tok, st !! "auth_token" = Some tok /\ tok <> ""
                               /\ v = "Bearer " ++ tok.

(** The operations of the session manager. *)
Inductive session_operation : Type :=
| DoLogin (email password : string)
| DoRegister (userData : value)
| DoLogout
| DoHydrate.

Definition run_operation `{Platform} (op : session_operation) : M unit :=
  match op with
  | DoLogin email password =>
      let* _ := AuthProvider.login email password in ret tt
  | DoRegister userData =>
      let* _ := AuthProvider.register userData in ret tt
  | DoLogout => AuthProvider.logout
  | DoHydrate => AuthProvider.mount
  end.

(** What an operation of the session manager can have done to the store
    by the time it completes: nothing, both entries deleted, both entries
    written, or else a store operation has failed on the way. *)
Definition settled (w w' : World) : Prop :=
  (store_failures w <= store_failures w')%nat
  /\ (store w' = store w
      \/ store w' = base.delete "user_data" (base.delete "auth_token" (store w))
      \/ (exists tok text,
            store w' = <["user_data" := text]> (<["auth_token" := tok]> (store w)))
      \/ (store_failures w < store_failures w')%nat).

(** *** Reading a query back (URL standard)

    What the receiving side does with a query: the
    application/x-www-form-urlencoded parser. *)

Definition hex_value (c : ascii) : option N :=
  let n := N_of_ascii c in
  if ((48 <=? n) && (n <=? 57))%N then Some (n - 48)%N
  else if ((65 <=? n) && (n <=? 70))%N then Some (n - 55)%N
  else if ((97 <=? n) && (n <=? 102))%N then Some (n - 87)%N
  else None.

Fixpoint percent_decode (s : string) : string :=
  match s with
  | EmptyString => EmptyString
  | String c s1 =>
      if Ascii.eqb c "%" then
        match s1 with
        | String a (String b rest) =>
            match hex_value a, hex_value b with
            | Some x, Some y =>
                String (ascii_of_N (16 * x + y)) (percent_decode rest)
            | _, _ => String c (percent_decode s1)
            end
        | _ => String c (percent_decode s1)
        end
      else String c (percent_decode s1)
  end.

Fixpoint plus_to_space (s : string) : string :=
  match s with
  | EmptyString => EmptyString
  | String c s' => String (if Ascii.eqb c "+" then " "%char else c) (plus_to_space s')
  end.

Definition urldecode (s : string) : string := percent_decode (plus_to_space s).

(** The pieces of [s] between the occurrences of [sep]. *)
Fixpoint split_on (sep : ascii) (s : string) : list string :=
  match s with
  | EmptyString => [EmptyString]
  | String c s' =>
      if Ascii.eqb c sep then EmptyString :: split_on sep s'
      else let pieces := split_on sep s' in
           String c (hd EmptyString pieces) :: tl pieces
  end.

(** [s] cut at its first [sep], if it has one. *)
Fixpoint cut_at (sep : ascii) (s : string) : string * option string :=
  match s with
  | EmptyString => (EmptyString, None)
  | String c s' =>
      if Ascii.eqb c sep then (EmptyString, Some s')
      else let cut := cut_at sep s' in (String c (fst cut), snd cut)
  end.

Definition urlencoded_parse (input : string) : list (string * string) :=
  flat_map
    (fun piece =>
       if String.eqb piece "" then []
       else let (name, value) := cut_at "=" piece in
            [(urldecode name, urldecode (default "" value))])
    (split_on "&" input).

(** What the request of an operation has to look like, its headers
    apart: a [get] is a GET without body; the others go with their verb to
    the base URL followed by the endpoint as it stands, with the JSON text
    of truthy data as body. *)
Definition sent_by `{Platform} (self : ApiClient.t) (c : client_call)
    (req : Request) : Prop :=
  match c with
  | CallGet _ _ => req_method req = "GET" /\ req_body req = None
  | CallPost endpoint data =>
      req_method req = "POST"
      /\ req_url req = ApiClient.baseURL self ++ endpoint
      /\ req_body req = if truthy data then JSON_stringify data else None
  | CallPut endpoint data =>
      req_method req = "PUT"
      /\ req_url req = ApiClient.baseURL self ++ endpoint
      /\ req_body req = if truthy data then JSON_stringify data else None
  | CallDelete endpoint =>
      req_method req = "DELETE"
      /\ req_url req = ApiClient.baseURL self ++ endpoint
      /\ req_body req = None
  end.

(** The named operations of the resource modules. *)
Inductive resource_operation : Type :=
| AuthLogin (email password : string)
| AuthRegister (userData : value)
| AuthGetCurrentUser
| AuthLogout
| AuthRefreshToken
| PatientsGetAll (params : option Record_)
| PatientsGetById (id : string)
| PatientsCreate (patientData : value)
| PatientsUpdate (id : string) (patientData : value)
| PatientsDelete (id : string)
| PatientsGetMedicalHistory (id : string)
| PatientsGetMedications (id : string)
| AppointmentsGetAll (params : option Record_)
| AppointmentsGetById (id : string)
| AppointmentsCreate (appointmentData : value)
| AppointmentsUpdate (id : string) (appointmentData : value)
| AppointmentsDelete (id : string)
| AppointmentsGetDoctorAvailability (doctorId date : string)
| DashboardGetStats
| DashboardGetRecentActivity (params : option Record_)
| UsersGetAll (params : option Record_)
| UsersGetById (id : string)
| UsersGetDoctors
| UsersUpdate (id : string) (userData : value)
| UsersDelete (id : string).

Definition call_resource `{Platform} (op : resource_operation) : M value :=
  match op with
  | AuthLogin email password => authApi.login email password
  | AuthRegister userData => authApi.register userData
  | AuthGetCurrentUser => authApi.getCurrentUser
  | AuthLogout => authApi.logout
  | AuthRefreshToken => authApi.refreshToken
  | PatientsGetAll params => patientsApi.getAll params
  | PatientsGetById id => patientsApi.getById id
  | PatientsCreate patientData => patientsApi.create patientData
  | PatientsUpdate id patientData => patientsApi.update id patientData
  | PatientsDelete id => patientsApi.delete id
  | PatientsGetMedicalHistory id => patientsApi.getMedicalHistory id
  | PatientsGetMedications id => patientsApi.getMedications id
  | AppointmentsGetAll params => appointmentsApi.getAll params
  | AppointmentsGetById id => appointmentsApi.getById id
  | AppointmentsCreate appointmentData => appointmentsApi.create appointmentData
  | AppointmentsUpdate id appointmentData =>
      appointmentsApi.update id appointmentData
  | AppointmentsDelete id => appointmentsApi.delete id
  | AppointmentsGetDoctorAvailability doctorId date =>
      appointmentsApi.getDoctorAvailability doctorId date
  | DashboardGetStats => dashboardApi.getStats
  | DashboardGetRecentActivity params => dashboardApi.getRecentActivity params
  | UsersGetAll params => usersApi.getAll params
  | UsersGetById id => usersApi.getById id
  | UsersGetDoctors => usersApi.getDoctors
  | UsersUpdate id userData => usersApi.update id userData
  | UsersDelete id => usersApi.delete id
  end.

(** Does the operation read (GET) rather than change something? *)
Definition is_read (op : resource_operation) : bool :=
  match op with
  | AuthGetCurrentUser | PatientsGetAll _ | PatientsGetById _
  | PatientsGetMedicalHistory _ | PatientsGetMedications _
  | AppointmentsGetAll _ | AppointmentsGetById _
  | AppointmentsGetDoctorAvailability _ _ | DashboardGetStats
  | DashboardGetRecentActivity _ | UsersGetAll _ | UsersGetById _
  | UsersGetDoctors => true
  | _ => false
  end.

(** The table of the resource modules: the verb and the path of every
    operation, the data that goes with a POST or PUT and the parameters
    that go with a GET. *)
Definition operation_verb (op : resource_operation) : string :=
  match op with
  | AuthLogin _ _ => "POST"
  | AuthRegister _ => "POST"
  | AuthGetCurrentUser => "GET"
  | AuthLogout => "POST"
  | AuthRefreshToken => "POST"
  | PatientsGetAll _ => "GET"
  | PatientsGetById _ => "GET"
  | PatientsCreate _ => "POST"
  | PatientsUpdate _ _ => "PUT"
  | PatientsDelete _ => "DELETE"
  | PatientsGetMedicalHistory _ => "GET"
  | PatientsGetMedications _ => "GET"
  | AppointmentsGetAll _ => "GET"
  | AppointmentsGetById _ => "GET"
  | AppointmentsCreate _ => "POST"
  | AppointmentsUpdate _ _ => "PUT"
  | AppointmentsDelete _ => "DELETE"
  | AppointmentsGetDoctorAvailability _ _ => "GET"
  | DashboardGetStats => "GET"
  | DashboardGetRecentActivity _ => "GET"
  | UsersGetAll _ => "GET"
  | UsersGetById _ => "GET"
  | UsersGetDoctors => "GET"
  | UsersUpdate _ _ => "PUT"
  | UsersDelete _ => "DELETE"
  end.

Definition operation_path (op : resource_operation) : string :=
  match op with
  | AuthLogin _ _ => "/auth/login"
  | AuthRegister _ => "/auth/register"
  | AuthGetCurrentUser => "/auth/me"
  | AuthLogout => "/auth/logout"
  | AuthRefreshToken => "/auth/refresh"
  | PatientsGetAll _ => "/patients"
  | PatientsGetById id => "/patients/" ++ id
  | PatientsCreate _ => "/patients"
  | PatientsUpdate id _ => "/patients/" ++ id
  | PatientsDelete id => "/patients/" ++ id
  | PatientsGetMedicalHistory id => "/patients/" ++ id ++ "/medical-history"
  | PatientsGetMedications id => "/patients/" ++ id ++ "/medications"
  | AppointmentsGetAll _ => "/appointments"
  | AppointmentsGetById id => "/appointments/" ++ id
  | AppointmentsCreate _ => "/appointments"
  | AppointmentsUpdate id _ => "/appointments/" ++ id
  | AppointmentsDelete id => "/appointments/" ++ id
  | AppointmentsGetDoctorAvailability doctorId _ =>
      "/appointments/doctor/" ++ doctorId ++ "/availability"
  | DashboardGetStats => "/dashboard/stats"
  | DashboardGetRecentActivity _ => "/dashboard/recent-activity"
  | UsersGetAll _ => "/users"
  | UsersGetById id => "/users/" ++ id
  | UsersGetDoctors => "/users/doctors"
  | UsersUpdate id _ => "/users/" ++ id
  | UsersDelete id => "/users/" ++ id
  end.

Definition operation_data (op : resource_operation) : value :=
  match op with
  | AuthLogin email password =>
      VObj [("email", VStr email); ("password", VStr password)]
  | AuthRegister userData => userData
  | PatientsCreate patientData => patientData
  | PatientsUpdate _ patientData => patientData
  | AppointmentsCreate appointmentData => appointmentData
  | AppointmentsUpdate _ appointmentData => appointmentData
  | UsersUpdate _ userData => userData
  | _ => VUndefined
  end.

Definition operation_params (op : resource_operation) : list (string * string) :=
  match op with
  | PatientsGetAll (Some params) => Object_entries params
  | AppointmentsGetAll (Some params) => Object_entries params
  | AppointmentsGetDoctorAvailability _ date => [("date", date)]
  | DashboardGetRecentActivity (Some params) => Object_entries params
  | UsersGetAll (Some params) => Object_entries params
  | _ => []
  end.

(** What hydration has sent by the world [w'], having started in [w]:
    nothing, or the one validation request, a GET with the token of the
    store, which takes two entries that are not empty and a user entry
    that parses. *)
Definition validation_sent `{Platform} (w w' : World) : Prop :=
  requests (trace w') = requests (trace w)
  \/ exists req tok ud parsed,
       requests (trace w') = (requests (trace w) ++ [req])%list
       /\ req_method req = "GET" /\ req_body req = None
       /\ carries_auth (store w) (req_headers req)
       /\ store w !! "auth_token" = Some tok /\ tok <> ""
       /\ store w !! "user_data" = Some ud /\ ud <> ""
       /\ JSON_parse ud = Some parsed.

(** Where hydration can leave the session: signed out, or authenticated
    with the token of the store, which it has then left as it was. *)
Definition hydrated_state (w w' : World) : Prop :=
  authState w' = signed_out
  \/ exists tok data,
       store w !! "auth_token" = Some tok /\ tok <> ""
       /\ truthy data = true
       /\ authState w' = {| user := data; token := VStr tok;
                            isAuthenticated := true |}
       /\ store w' = store w.

(** ** A test double of the platform, for the concrete runs *)

Module Fixture.

Definition dq : string := String (ascii_of_nat 34) EmptyString.
Definition quoted (s : string) : string := dq ++ s ++ dq.

Definition scalar (v : value) : option string :=
  match v with
  | VNull => Some "null"
  | VBool true => Some "true"
  | VBool false => Some "false"
  | VStr s => Some (quoted s)
  | _ => None
  end.

Fixpoint members (ps : list (string * value)) : option string :=
  match ps with
  | [] => Some ""
  | (k, v) :: ps' =>
      match scalar v, members ps' with
      | Some s, Some rest =>
          Some (quoted k ++ ":" ++ s
                ++ match ps' with [] => "" | _ => "," ++ rest end)
      | _, _ => None
      end
  end.

(** Serialises scalars and flat objects of scalars, numbers apart. *)
Definition stringify (v : value) : option string :=
  match v with
  | VObj ps => option_map (fun s => "{" ++ s ++ "}") (members ps)
  | _ => scalar v
  end.

Definition ann : value := VObj [("id", VStr "u1"); ("name", VStr "Ann")].
Definition ann_text : string := Eval vm_compute in default "" (stringify ann).

(** Reads back the one document of the examples. *)
Definition parse (s : string) : option value :=
  if String.eqb s ann_text then Some ann
  else if String.eqb s "null" then Some VNull
  else None.

(** Takes an absolute http(s) URL without query to be in normal form
    already, its fragment (what follows the first [#]) set apart, and
    refuses everything else. *)
Definition parse_url (s : string) : option URL :=
  let address := fst (cut_at "#" s) in
  if (String.prefix "http://" address || String.prefix "https://" address)
     && negb (includes "?" address)
  then Some {| url_prefix := address; url_query := None; url_params := [];
               url_hash := match snd (cut_at "#" s) with
                           | Some fragment => "#" ++ fragment
                           | None => ""
                           end |}
  else None.

(** Its storage refuses what is not a string. *)
Definition platform : Platform :=
  {| JSON_parse := parse; JSON_stringify := stringify;
     URL_parse := parse_url; EXPO_PUBLIC_API_URL := None;
     SecureStorage_coerce := fun _ => None |}.

(** A fresh process: nothing stored, nothing scheduled, nothing logged. *)
Definition blank : World :=
  {| store := ∅; store_faults := []; network := []; trace := [];
     authState := signed_out; loading := true |}.

Definition json_response (st : Z) (v : value) : Response :=
  {| resp_status := st; resp_content_type := Some "application/json; charset=utf-8";
     resp_json := Some v |}.

Definition html_response (st : Z) : Response :=
  {| resp_status := st; resp_content_type := Some "text/html";
     resp_json := None |}.

Definition envelope (ok : bool) (data : value) : value :=
  VObj [("success", VBool ok); ("data", data)].

Definition session_data (tok : string) : value :=
  VObj [("user", ann); ("token", VStr tok)].

(** The server's answers, in the order of the requests. *)
Definition served (answers : list Response) (w : World) : World :=
  with_network (map Resolves answers) w.

(** The store's coming operations fail where the list says [true]. *)
Definition flaky (faults : list bool) (w : World) : World :=
  with_store_faults faults w.

(** The server accepts the credentials: a session for Ann. *)
Definition accepted : Response :=
  json_response 200 (envelope true (session_data "t0k3n")).

(** The server answers, but declines. *)
Definition declined : Response :=
  json_response 200 (envelope false VNull).

Definition unauthorized : Response :=
  json_response 401 (VObj [("success", VBool false);
                           ("message", VStr "Unauthorized")]).

(** A device that holds the credentials of an earlier session. *)
Definition returning : World :=
  {| store := {[ "auth_token" := "t0k3n"; "user_data" := ann_text ]};
     store_faults := []; network := []; trace := [];
     authState := signed_out; loading := true |}.

(** The same device, signed in. *)
Definition signed_in : World :=
  with_loading false
    (with_authState {| user := ann; token := VStr "t0k3n";
                       isAuthenticated := true |} returning).

End Fixture.

(** * Properties *)

(** ** Response handling *)



Example number_to_string_500 : number_to_string 500 = "500".
Proof. reflexivity. Qed.



(** C10 (as amended). A response whose content type contains the text
    [application/json], in lower case as it stands, and which has a success
    status resolves with the parsed body as it is, whatever its [success]
    field says; and [handleResponse] rejects only when the status is a
    failure status or when the body of such a response does not parse.
    Containing that text is all that makes a response count as JSON. *)
Theorem json_response_passthrough (response : Response) (w : World) :
  (ApiClient.declares_json response = true ->
   resp_ok response = true ->
   forall body, resp_json response = Some body ->
     ApiClient.handleResponse response w = (Ok body, log EvJson w))
  /\ (forall e w', ApiClient.handleResponse response w = (Throw e, w') ->
        resp_ok response = false
        \/ (ApiClient.declares_json response = true /\ resp_json response = None))
  /\ (ApiClient.declares_json response = true
      <-> exists contentType,
            resp_content_type response = Some contentType
            /\ includes "application/json" contentType = true).
Proof.
  split; [|split].
  - unfold ApiClient.handleResponse.
    intros Hct Hok body Hbody. rewrite Hct, Hok.
    unfold bind, Response_json, ret. rewrite Hbody. reflexivity.
  - unfold ApiClient.handleResponse.
    intros e w'. destruct (ApiClient.declares_json response) eqn:Hct;
      destruct (resp_ok response) eqn:Hok; auto.
    + unfold bind, Response_json, ret. cbn [negb].
      destruct (resp_json response); [discriminate | auto].
    + discriminate.
  - unfold ApiClient.declares_json.
    destruct (resp_content_type response) as [contentType|].
    + destruct (String.eqb_spec contentType "") as [-> | Hne]; cbn [negb andb].
      * split; [discriminate|]. intros (ct & [= <-] & Hin). discriminate Hin.
      * split; [eauto|]. now intros (ct & [= <-] & Hin).
    + split; [discriminate|]. intros (ct & [=] & _).
Qed.

Lemma json_response_passthrough_witness :
  ApiClient.handleResponse
    (Fixture.json_response 200 (Fixture.envelope false VNull)) Fixture.blank
  = (Ok (Fixture.envelope false VNull), log EvJson Fixture.blank).
Proof.
  apply (proj1 (json_response_passthrough
                  (Fixture.json_response 200 (Fixture.envelope false VNull))
                  Fixture.blank)); reflexivity.
Defined.

(** Two answers with a success status and a body that says
    [success: false], declared with JSON media types that do not contain
    the text [application/json] in lower case: the body is not looked at
    and the caller gets the synthetic success envelope instead. *)
Lemma json_media_type_not_recognised :
  let declared (contentType : string) :=
    {| resp_status := 200; resp_content_type := Some contentType;
       resp_json := Some (Fixture.envelope false VNull) |} in
  ApiClient.handleResponse (declared "application/vnd.api+json") Fixture.blank
  = (Ok (VObj [("success", VBool true); ("data", VNull)]), Fixture.blank)
  /\ ApiClient.handleResponse (declared "Application/JSON; charset=utf-8")
       Fixture.blank
     = (Ok (VObj [("success", VBool true); ("data", VNull)]), Fixture.blank).
Proof. vm_compute. split; reflexivity. Qed.

(** ** Running computations *)

Section Runs.
Context {A B : Type}.

Lemma bind_ok (m : M A) (k : A -> M B) (w w' : World) (a : A) :
  m w = (Ok a, w') -> bind m k w = k a w'.
Proof. unfold bind. now intros ->. Qed.

Lemma bind_throw (m : M A) (k : A -> M B) (w w' : World) (e : error) :
  m w = (Throw e, w') -> bind m k w = (Throw e, w').
Proof. unfold bind. now intros ->. Qed.

Lemma try_catch_ok (m : M A) (h : error -> M A) (w w' : World) (a : A) :
  m w = (Ok a, w') -> try_catch m h w = (Ok a, w').
Proof. unfold try_catch. now intros ->. Qed.

Lemma try_catch_throw (m : M A) (h : error -> M A) (w w' : World) (e : error) :
  m w = (Throw e, w') -> try_catch m h w = h e w'.
Proof. unfold try_catch. now intros ->. Qed.

End Runs.

Lemma requests_app (t t' : list event) :
  requests (t ++ t')%list = (requests t ++ requests t')%list.
Proof.
  induction t as [|e t IH]; [reflexivity|].
  destruct e; cbn [requests app]; now rewrite ?IH.
Qed.

Lemma count_failures_app (t t' : list event) :
  count_failures (t ++ t')%list = (count_failures t + count_failures t')%nat.
Proof.
  induction t as [|e t IH]; [reflexivity|].
  cbn [count_failures app]. rewrite IH. lia.
Qed.

(** What one more event does to the observations. *)
Lemma requests_log (e : event) (w : World) :
  requests (trace (log e w))
  = (requests (trace w) ++ match e with EvFetch r => [r] | _ => [] end)%list.
Proof. cbn [log trace]. rewrite requests_app. now destruct e. Qed.

Lemma store_failures_log (e : event) (w : World) :
  store_failures (log e w)
  = (store_failures w + if is_store_failure e then 1 else 0)%nat.
Proof.
  unfold store_failures. cbn [log trace]. rewrite count_failures_app.
  cbn [count_failures]. lia.
Qed.

Lemma delete_failed_log (e : event) (w : World) :
  delete_failed (log e w) = delete_failed w || is_delete_failure e.
Proof.
  unfold delete_failed. cbn [log trace]. rewrite List.existsb_app.
  cbn [List.existsb]. now rewrite orb_false_r.
Qed.

(** ** The store operations *)

Lemma offline_refl (w : World) : offline w w.
Proof. now unfold offline. Qed.

Lemma offline_trans (w1 w2 w3 : World) :
  offline w1 w2 -> offline w2 w3 -> offline w1 w3.
Proof. unfold offline. intuition congruence. Qed.

Ltac unfold_js :=
  unfold SecureStorage.getItemAsync, SecureStorage.setItemAsync,
    SecureStorage.deleteItemAsync, SecureStorage.attempt, console_error,
    setAuthState, setLoading, fetch, Response_json in *;
  unfold bind, ret, throw, lift, try_catch, try_finally in *;
  cbv beta in *.

Ltac world_simpl :=
  cbn [store store_faults network trace authState loading with_store
       with_store_faults with_network log with_authState with_loading
       fst snd] in *.

(** Rewrites the observations of a world whose trace is known. *)
Ltac observe :=
  unfold offline, store_failures, delete_failed in *; world_simpl;
  rewrite ?requests_app, ?count_failures_app, ?List.existsb_app in *;
  cbn [requests count_failures List.existsb is_store_failure
       is_delete_failure orb app] in *;
  rewrite ?app_nil_r, ?orb_false_r, ?orb_true_r, ?Nat.add_0_r in *.

Lemma getItemAsync_run (key : string) (w : World) :
  exists w', offline w w' /\ store w' = store w
    /\ store_faults w' = tl (store_faults w)
    /\ ((hd false (store_faults w) = false
         /\ SecureStorage.getItemAsync key w = (Ok (store w !! key), w')
         /\ trace w' = trace w)
        \/ (hd false (store_faults w) = true
            /\ SecureStorage.getItemAsync key w = (Throw (StoreError key), w')
            /\ trace w' = (trace w ++ [EvStoreFailed OpGet key])%list)).
Proof.
  unfold_js. destruct (hd false (store_faults w)).
  - exists (log (EvStoreFailed OpGet key)
              (with_store_faults (tl (store_faults w)) w)).
    observe. tauto.
  - exists (with_store_faults (tl (store_faults w)) w). observe. tauto.
Qed.

Lemma getItemAsync_ok (key : string) (w : World) :
  hd false (store_faults w) = false ->
  SecureStorage.getItemAsync key w
  = (Ok (store w !! key), with_store_faults (tl (store_faults w)) w).
Proof. unfold_js. now intros ->. Qed.

Lemma getItemAsync_fail (key : string) (w : World) :
  hd false (store_faults w) = true ->
  SecureStorage.getItemAsync key w
  = (Throw (StoreError key),
     log (EvStoreFailed OpGet key) (with_store_faults (tl (store_faults w)) w)).
Proof. unfold_js. now intros ->. Qed.

Lemma setItemAsync_run `{Platform} (key : string) (v : value) (w : World) :
  exists w', offline w w'
    /\ ((exists s, SecureStorage.stored_text v = Some s
           /\ SecureStorage.setItemAsync key v w = (Ok tt, w')
           /\ store w' = <[key := s]> (store w)
           /\ store_faults w' = tl (store_faults w)
           /\ trace w' = trace w)
        \/ (SecureStorage.setItemAsync key v w = (Throw (StoreError key), w')
            /\ store w' = store w
            /\ trace w' = (trace w ++ [EvStoreFailed OpSet key])%list)).
Proof.
  unfold_js. destruct (hd false (store_faults w)).
  - exists (log (EvStoreFailed OpSet key)
              (with_store_faults (tl (store_faults w)) w)).
    observe. tauto.
  - destruct (SecureStorage.stored_text v) as [s|].
    + exists (with_store (<[key := s]> (store w))
                (with_store_faults (tl (store_faults w)) w)).
      observe. split; [tauto|]. left. now exists s.
    + exists (log (EvStoreFailed OpSet key)
                (with_store_faults (tl (store_faults w)) w)).
      observe. tauto.
Qed.

Lemma setItemAsync_ok `{Platform} (key s : string) (w : World) :
  hd false (store_faults w) = false ->
  SecureStorage.setItemAsync key (VStr s) w
  = (Ok tt, with_store (<[key := s]> (store w))
              (with_store_faults (tl (store_faults w)) w)).
Proof. unfold_js. now intros ->. Qed.

Lemma deleteItemAsync_run (key : string) (w : World) :
  exists w', offline w w'
    /\ store_faults w' = tl (store_faults w)
    /\ ((SecureStorage.deleteItemAsync key w = (Ok tt, w')
         /\ store w' = base.delete key (store w)
         /\ trace w' = trace w)
        \/ (SecureStorage.deleteItemAsync key w = (Throw (StoreError key), w')
            /\ store w' = store w
            /\ trace w' = (trace w ++ [EvStoreFailed OpDelete key])%list)).
Proof.
  unfold_js. destruct (hd false (store_faults w)).
  - exists (log (EvStoreFailed OpDelete key)
              (with_store_faults (tl (store_faults w)) w)).
    observe. tauto.
  - exists (with_store (base.delete key (store w))
              (with_store_faults (tl (store_faults w)) w)).
    observe. tauto.
Qed.

(** [clearAuth] never rejects; it signs the session out and, unless one
    of its deletes fails, removes both entries. *)
Lemma clearAuth_run (w : World) :
  exists w', AuthProvider.clearAuth w = (Ok tt, w')
    /\ authState w' = signed_out /\ loading w' = loading w
    /\ network w' = network w /\ requests (trace w') = requests (trace w)
    /\ ((store w' = base.delete "user_data" (base.delete "auth_token" (store w))
         /\ trace w' = trace w)
        \/ (delete_failed w' = true
            /\ (store_failures w < store_failures w')%nat
            /\ (store w' = store w
                \/ store w' = base.delete "auth_token" (store w)))).
Proof.
  unfold AuthProvider.clearAuth. unfold_js.
  destruct (hd false (store_faults w)); world_simpl;
    [|destruct (hd false (tl (store_faults w)))]; world_simpl;
    eexists; (split; [reflexivity|]); observe;
    repeat (split; [reflexivity|]); try (left; now auto);
    right; (split; [reflexivity|]); (split; [lia|]); auto.
Qed.

(** ** The client leaves the store and the session alone *)

Lemma client_frame_refl (w : World) : client_frame w w.
Proof. unfold client_frame. auto. Qed.

Lemma client_frame_trans (w1 w2 w3 : World) :
  client_frame w1 w2 -> client_frame w2 w3 -> client_frame w1 w3.
Proof.
  unfold client_frame. intros (?&?&?&?&?) (?&?&?&?&?).
  repeat split; try congruence. lia.
Qed.

Lemma framed_ret {A : Type} (a : A) : framed (ret a).
Proof. intros w. apply client_frame_refl. Qed.

Lemma framed_throw {A : Type} (e : error) : framed (@throw A e).
Proof. intros w. apply client_frame_refl. Qed.

Lemma framed_lift {A : Type} (r : result A) : framed (lift r).
Proof. intros w. apply client_frame_refl. Qed.

Lemma framed_bind {A B : Type} (m : M A) (k : A -> M B) :
  framed m -> (forall a, framed (k a)) -> framed (bind m k).
Proof.
  intros Hm Hk w. unfold bind. specialize (Hm w).
  destruct (m w) as [[a|e] w1]; cbn [snd] in *; [|exact Hm].
  eapply client_frame_trans; [exact Hm | apply Hk].
Qed.

Lemma framed_getItemAsync (key : string) :
  framed (SecureStorage.getItemAsync key).
Proof.
  intros w. destruct (getItemAsync_run key w) as (w' & Hoff & Hst & _ & Hrun).
  destruct Hrun as [(_ & -> & Htr) | (_ & -> & Htr)]; cbn [snd];
    unfold client_frame; observe; rewrite Htr; observe;
    destruct Hoff as (? & ? & _); repeat split; auto; lia.
Qed.

Lemma framed_fetch (req : Request) : framed (fetch req).
Proof.
  intros w. unfold fetch. destruct (hd Rejects (network w)); cbn [snd];
    unfold client_frame; observe; repeat split; auto; lia.
Qed.

Lemma framed_Response_json (r : Response) : framed (Response_json r).
Proof.
  intros w. unfold Response_json. cbn [snd].
  unfold client_frame; observe; repeat split; auto; lia.
Qed.

Create HintDb framed.
#[local] Hint Resolve framed_getItemAsync framed_fetch framed_Response_json
  : framed.

Ltac framed :=
  cbv zeta;
  repeat first
    [ solve [auto 1 with framed nocore]
    | apply framed_ret | apply framed_throw | apply framed_lift
    | apply framed_bind; [|intros ?]
    | match goal with
      | |- framed (match ?x with _ => _ end) => destruct x
      end ].

Section ClientFrame.
Context `{Platform}.

Lemma framed_getAuthHeaders : framed ApiClient.getAuthHeaders.
Proof. unfold ApiClient.getAuthHeaders. framed. Qed.

Lemma framed_handleResponse (r : Response) : framed (ApiClient.handleResponse r).
Proof. unfold ApiClient.handleResponse. framed. Qed.

#[local] Hint Resolve framed_getAuthHeaders framed_handleResponse : framed.

Lemma framed_post (self : ApiClient.t) (endpoint : string) (data : value) :
  framed (ApiClient.post self endpoint data).
Proof. unfold ApiClient.post. framed. Qed.

Lemma framed_get (self : ApiClient.t) (endpoint : string)
    (params : option Record_) :
  framed (ApiClient.get self endpoint params).
Proof. unfold ApiClient.get, URL_new. framed. Qed.

End ClientFrame.

(** ** What a call adds to the trace *)

Lemma absent_after_clear (m : gmap string string) :
  base.delete "user_data" (base.delete "auth_token" m) !! "auth_token" = None
  /\ base.delete "user_data" (base.delete "auth_token" m) !! "user_data" = None.
Proof.
  split.
  - rewrite lookup_delete_ne by discriminate. apply lookup_delete_eq.
  - apply lookup_delete_eq.
Qed.

Lemma grows_refl (w : World) : grows w w.
Proof. exists []. now rewrite app_nil_r. Qed.

Lemma grows_trans (w1 w2 w3 : World) : grows w1 w2 -> grows w2 w3 -> grows w1 w3.
Proof.
  intros (t & Ht) (t' & Ht'). exists (t ++ t')%list.
  now rewrite Ht', Ht, app_assoc.
Qed.

Lemma grows_log (e : event) (w w' : World) : grows w w' -> grows w (log e w').
Proof.
  intros (t & Ht). exists (t ++ [e])%list. cbn [log trace].
  now rewrite Ht, app_assoc.
Qed.

Lemma events_since_new (w w' : World) (t : list event) :
  trace w' = (trace w ++ t)%list -> events_since w w' = t.
Proof.
  unfold events_since. intros ->.
  rewrite List.skipn_app, skipn_all, Nat.sub_diag. reflexivity.
Qed.

Lemma growing_ret {A : Type} (a : A) : growing (ret a).
Proof. intros w. apply grows_refl. Qed.

Lemma growing_throw {A : Type} (e : error) : growing (@throw A e).
Proof. intros w. apply grows_refl. Qed.

Lemma growing_lift {A : Type} (r : result A) : growing (lift r).
Proof. intros w. apply grows_refl. Qed.

Lemma growing_bind {A B : Type} (m : M A) (k : A -> M B) :
  growing m -> (forall a, growing (k a)) -> growing (bind m k).
Proof.
  intros Hm Hk w. unfold bind. specialize (Hm w).
  destruct (m w) as [[a|e] w1]; cbn [snd] in *; [|exact Hm].
  eapply grows_trans; [exact Hm | apply Hk].
Qed.

Lemma growing_getItemAsync (key : string) :
  growing (SecureStorage.getItemAsync key).
Proof.
  intros w. destruct (getItemAsync_run key w) as (w' & _ & _ & _ & Hrun).
  destruct Hrun as [(_ & -> & Htr) | (_ & -> & Htr)]; cbn [snd].
  - exists []. now rewrite app_nil_r.
  - eexists. exact Htr.
Qed.

Lemma growing_fetch (req : Request) : growing (fetch req).
Proof.
  intros w. unfold fetch. destruct (hd Rejects (network w)); cbn [snd];
    eexists; reflexivity.
Qed.

Lemma growing_Response_json (r : Response) : growing (Response_json r).
Proof. intros w. unfold Response_json. cbn [snd]. eexists. reflexivity. Qed.

Create HintDb growing.
#[local] Hint Resolve growing_getItemAsync growing_fetch growing_Response_json
  : growing.

Ltac growing :=
  cbv zeta;
  repeat first
    [ solve [auto 1 with growing nocore]
    | apply growing_ret | apply growing_throw | apply growing_lift
    | apply growing_bind; [|intros ?]
    | match goal with
      | |- growing (match ?x with _ => _ end) => destruct x
      end ].

Section ClientTrace.
Context `{Platform}.

Lemma growing_getAuthHeaders : growing ApiClient.getAuthHeaders.
Proof. unfold ApiClient.getAuthHeaders. growing. Qed.

Lemma growing_handleResponse (r : Response) : growing (ApiClient.handleResponse r).
Proof. unfold ApiClient.handleResponse. growing. Qed.

#[local] Hint Resolve growing_getAuthHeaders growing_handleResponse : growing.

Lemma growing_post (self : ApiClient.t) (endpoint : string) (data : value) :
  growing (ApiClient.post self endpoint data).
Proof. unfold ApiClient.post. growing. Qed.

Lemma growing_get (self : ApiClient.t) (endpoint : string)
    (params : option Record_) :
  growing (ApiClient.get self endpoint params).
Proof. unfold ApiClient.get, URL_new. growing. Qed.

(** What [clearAuth] adds to the trace tells whether it has removed the
    entries: it never rejects, it signs the session out, and both entries
    are gone unless a failed delete is among the events it has logged. *)
Lemma clearAuth_trace (w : World) :
  exists w' t, AuthProvider.clearAuth w = (Ok tt, w')
    /\ trace w' = (trace w ++ t)%list
    /\ authState w' = signed_out
    /\ requests (trace w') = requests (trace w)
    /\ (List.existsb is_delete_failure t = false ->
        store w' = base.delete "user_data" (base.delete "auth_token" (store w))).
Proof.
  unfold AuthProvider.clearAuth. unfold_js.
  destruct (hd false (store_faults w)); world_simpl;
    [|destruct (hd false (tl (store_faults w)))]; world_simpl.
  - eexists. eexists. split; [reflexivity|]. world_simpl.
    rewrite <- !app_assoc. split; [reflexivity|]. split; [reflexivity|].
    rewrite !requests_app. cbn [requests]. rewrite !app_nil_r.
    split; [reflexivity|]. cbn. discriminate.
  - eexists. eexists. split; [reflexivity|]. world_simpl.
    rewrite <- !app_assoc. split; [reflexivity|]. split; [reflexivity|].
    rewrite !requests_app. cbn [requests]. rewrite !app_nil_r.
    split; [reflexivity|]. cbn. discriminate.
  - eexists. exists []. split; [reflexivity|]. world_simpl.
    rewrite app_nil_r. auto.
Qed.

(** Once [clearAuth] has run in [wx], some way into a call that began in
    [w]: the entries are gone unless a delete has failed since [w]. *)
Lemma cleared_since (w wx w1 : World) (t : list event) :
  grows w wx ->
  trace w1 = (trace wx ++ t)%list ->
  (List.existsb is_delete_failure t = false ->
   store w1 = base.delete "user_data" (base.delete "auth_token" (store wx))) ->
  delete_failed_since w w1 = false ->
  store w1 !! "auth_token" = None /\ store w1 !! "user_data" = None.
Proof.
  intros (t0 & Ht0) Ht Hst. unfold delete_failed_since.
  rewrite (events_since_new w w1 (t0 ++ t)%list)
    by (now rewrite Ht, Ht0, app_assoc).
  rewrite List.existsb_app. intros Hd. apply orb_false_iff in Hd as (_ & Hd).
  rewrite (Hst Hd). apply absent_after_clear.
Qed.

End ClientTrace.

(** ** Logout *)

Section Logout.
Context `{Platform}.

(** C3 (as amended). [logout] does not reject and ends with the session
    signed out, whatever [auth.logout] did; both store entries are gone
    whenever no delete of the store has failed during this call, whatever
    happened in earlier ones. *)
Theorem logout_signs_out (w : World) :
  exists w', AuthProvider.logout w = (Ok tt, w')
    /\ authState w' = signed_out
    /\ (delete_failed_since w w' = false ->
        store w' !! "auth_token" = None /\ store w' !! "user_data" = None).
Proof.
  unfold AuthProvider.logout, try_finally, try_catch, bind.
  pose proof (growing_post apiClient "/auth/logout" VUndefined w) as Hg.
  change (ApiClient.post _ _ _ w) with (authApi.logout w) in Hg.
  destruct (authApi.logout w) as [[v|e] w1]; cbn [snd] in Hg.
  - unfold ret. destruct (clearAuth_trace w1) as (w' & t & -> & Ht & Hs & _ & Hst).
    exists w'. split; [reflexivity|]. split; [exact Hs|].
    exact (cleared_since w w1 w' t Hg Ht Hst).
  - unfold console_error.
    destruct (clearAuth_trace (log (EvConsoleError "Logout API error:" e) w1))
      as (w' & t & -> & Ht & Hs & _ & Hst).
    exists w'. split; [reflexivity|]. split; [exact Hs|].
    exact (cleared_since w _ w' t (grows_log _ _ _ Hg) Ht Hst).
Qed.

End Logout.

Lemma logout_delete_failure :
  let w := with_store_faults [false; true]
             (with_network
                [Resolves (Fixture.json_response 200 (Fixture.envelope true VNull))]
                Fixture.signed_in) in
  let w' := snd (@AuthProvider.logout Fixture.platform w) in
  fst (@AuthProvider.logout Fixture.platform w) = Ok tt
  /\ authState w' = signed_out
  /\ store w' !! "auth_token" = Some "t0k3n"
  /\ store w' !! "user_data" = Some Fixture.ann_text.
Proof. vm_compute. repeat split. Qed.

(** A second logout, after one whose deletes failed. *)
Lemma logout_signs_out_witness :
  let w := snd (@AuthProvider.logout Fixture.platform
                  (with_store_faults [false; true] Fixture.signed_in)) in
  let w' := snd (@AuthProvider.logout Fixture.platform w) in
  store w !! "auth_token" = Some "t0k3n"
  /\ authState w' = signed_out
  /\ store w' !! "auth_token" = None /\ store w' !! "user_data" = None.
Proof.
  intros w. split; [vm_compute; reflexivity|].
  destruct (@logout_signs_out Fixture.platform w) as (w' & Hrun & Hs & Hst).
  rewrite Hrun. cbn [snd]. split; [exact Hs|]. apply Hst.
  change w' with (snd (Ok tt, w')). rewrite <- Hrun. vm_compute. reflexivity.
Defined.

(** ** Hydration *)

Lemma issued_none (w w' : World) :
  requests (trace w') = requests (trace w) -> issued w w' = [].
Proof. unfold issued. intros ->. apply skipn_all. Qed.

Section Hydration.
Context `{Platform}.

(** C5. When the token entry or the user entry is absent at start-up,
    hydration completes with the session signed out and without a single
    request on the network. *)
Theorem hydration_without_credentials (w : World) :
  store w !! "auth_token" = None \/ store w !! "user_data" = None ->
  exists w', AuthProvider.mount w = (Ok tt, w')
    /\ authState w' = signed_out /\ loading w' = false
    /\ issued w w' = [] /\ network w' = network w.
Proof.
  intros Habsent.
  unfold AuthProvider.mount, AuthProvider.loadStoredAuth.
  unfold bind at 1 2. unfold setAuthState, setLoading at 1.
  set (w0 := with_loading true (with_authState signed_out w)).
  unfold try_finally, try_catch.
  destruct (getItemAsync_run "auth_token" w0)
    as (w1 & Hoff1 & Hst1 & _ & [(_ & Hrun1 & _) | (_ & Hrun1 & _)]).
  - rewrite (bind_ok _ _ _ _ _ Hrun1).
    destruct (getItemAsync_run "user_data" w1)
      as (w2 & Hoff2 & Hst2 & _ & [(_ & Hrun2 & _) | (_ & Hrun2 & _)]).
    + rewrite (bind_ok _ _ _ _ _ Hrun2).
      replace (store w0) with (store w) by reflexivity.
      rewrite Hst1. replace (store w0) with (store w) by reflexivity.
      assert (Hskip : match store w !! "auth_token" with
                      | Some tok =>
                          match store w !! "user_data" with
                          | Some ud => true
                          | None => false
                          end
                      | None => false
                      end = false)
        by (destruct Habsent as [-> | ->]; [|destruct (store w !! _)]; reflexivity).
      destruct (store w !! "auth_token"); [destruct (store w !! "user_data")|];
        try discriminate;
        unfold ret, setLoading; eexists; (split; [reflexivity|]);
        pose proof (offline_trans _ _ _ Hoff1 Hoff2) as (Ha & _ & Hn & Hr);
        subst w0; world_simpl; repeat split; auto; apply issued_none; exact Hr.
    + rewrite (bind_throw _ _ _ _ _ Hrun2). unfold bind at 1, console_error.
      destruct (clearAuth_run
                  (log (EvConsoleError "Error loading stored auth:"
                          (StoreError "user_data")) w2))
        as (w3 & -> & Hs & _ & Hn & Hr & _).
      unfold setLoading; eexists; (split; [reflexivity|]).
      pose proof (offline_trans _ _ _ Hoff1 Hoff2) as (_ & _ & Hn' & Hr').
      subst w0. observe.
      repeat split; auto; [apply issued_none|]; world_simpl; congruence.
  - rewrite (bind_throw _ _ _ _ _ Hrun1). unfold bind at 1, console_error.
    destruct (clearAuth_run
                (log (EvConsoleError "Error loading stored auth:"
                        (StoreError "auth_token")) w1))
      as (w3 & -> & Hs & _ & Hn & Hr & _).
    unfold setLoading; eexists; (split; [reflexivity|]).
    destruct Hoff1 as (_ & _ & Hn' & Hr').
    subst w0. observe.
      repeat split; auto; [apply issued_none|]; world_simpl; congruence.
Qed.

(** Every way in which hydration gives up ends in [clearAuth] followed by
    [setLoading(false)]. *)
Lemma cleared_then_loaded (w wx w1 : World) (t : list event) :
  grows w wx ->
  trace w1 = (trace wx ++ t)%list ->
  authState w1 = signed_out ->
  (List.existsb is_delete_failure t = false ->
   store w1 = base.delete "user_data" (base.delete "auth_token" (store wx))) ->
  let w' := with_loading false w1 in
  authState w' = signed_out /\ loading w' = false
  /\ (delete_failed_since w w' = false ->
      store w' !! "auth_token" = None /\ store w' !! "user_data" = None).
Proof.
  intros Hg Ht Hs Hst w'. subst w'.
  split; [exact Hs|]. split; [reflexivity|].
  exact (cleared_since w wx w1 t Hg Ht Hst).
Qed.

(** The worlds hydration passes through before it gives up are later
    worlds of the same run. *)
Ltac later_world :=
  repeat match goal with x := _ : World |- _ => subst x end;
  repeat first
    [ assumption
    | apply grows_log
    | unfold grows; world_simpl; exists []; rewrite app_nil_r; reflexivity ].

Ltac gives_up :=
  match goal with
  | |- context [AuthProvider.clearAuth ?wx] =>
      let w1 := fresh "w" in
      let t := fresh "t" in
      let Hrun := fresh "Hrun" in
      let Ht := fresh "Ht" in
      let Hs := fresh "Hs" in
      let Hst := fresh "Hst" in
      destruct (clearAuth_trace wx) as (w1 & t & Hrun & Ht & Hs & _ & Hst);
      rewrite Hrun; unfold setLoading; cbv beta iota;
      eexists; split; [reflexivity|];
      apply (cleared_then_loaded _ wx w1 t); [later_world | exact Ht | exact Hs | exact Hst]
  end.

(** C4 (as amended). Both entries are there (and not empty, so that the
    token is put to validation) and [auth.getCurrentUser] does not come
    back with a success envelope: hydration ends with the session signed
    out, and with both entries gone whenever no delete of the store has
    failed during this hydration, whatever happened before it. *)
Theorem hydration_validation_failure (w : World) (tok ud : string) :
  store w !! "auth_token" = Some tok ->
  store w !! "user_data" = Some ud ->
  tok <> "" -> ud <> "" ->
  (forall response w1,
     authApi.getCurrentUser (at_validation w) = (Ok response, w1) ->
     AuthProvider.success_with_data response <> Ok true) ->
  exists w', AuthProvider.mount w = (Ok tt, w')
    /\ authState w' = signed_out /\ loading w' = false
    /\ (delete_failed_since w w' = false ->
        store w' !! "auth_token" = None /\ store w' !! "user_data" = None).
Proof.
  intros Htok Hud Htok' Hud' Hval.
  apply (proj2 (String.eqb_neq _ _)) in Htok'.
  apply (proj2 (String.eqb_neq _ _)) in Hud'.
  unfold AuthProvider.mount, AuthProvider.loadStoredAuth.
  unfold bind at 1 2. unfold setAuthState, setLoading at 1.
  set (w0 := with_loading true (with_authState signed_out w)).
  unfold try_finally, try_catch.
  destruct (hd false (store_faults w0)) eqn:Hf1.
  { rewrite (bind_throw _ _ _ _ _ (getItemAsync_fail _ _ Hf1)).
    unfold bind at 1, console_error. gives_up. }
  rewrite (bind_ok _ _ _ _ _ (getItemAsync_ok _ _ Hf1)).
  set (w1 := with_store_faults (tl (store_faults w0)) w0).
  destruct (hd false (store_faults w1)) eqn:Hf2.
  { rewrite (bind_throw _ _ _ _ _ (getItemAsync_fail _ _ Hf2)).
    unfold bind at 1, console_error. gives_up. }
  rewrite (bind_ok _ _ _ _ _ (getItemAsync_ok _ _ Hf2)).
  change (store w0) with (store w). change (store w1) with (store w).
  rewrite Htok, Hud, Htok', Hud'. cbn [negb andb].
  change (with_store_faults (tl (store_faults w1)) w1) with (at_validation w).
  unfold bind at 1.
  destruct (JSON_parse ud) as [parsed|].
  2:{ unfold throw. unfold bind at 1, console_error. gives_up. }
  unfold ret at 1. unfold try_catch. unfold bind at 1.
  pose proof (growing_get apiClient "/auth/me" None (at_validation w)) as Hg.
  change (ApiClient.get _ _ _ (at_validation w))
    with (authApi.getCurrentUser (at_validation w)) in Hg.
  apply (grows_trans w (at_validation w)) in Hg; [|exists []; apply eq_sym, app_nil_r].
  destruct (authApi.getCurrentUser (at_validation w)) as [[response|e] w2] eqn:Hrun;
    cbn [snd] in Hg.
  2:{ gives_up. }
  specialize (Hval _ _ eq_refl). unfold bind at 1, lift at 1.
  destruct (AuthProvider.success_with_data response) as [[|]|e];
    [congruence | | ]; gives_up.
Qed.

End Hydration.

Lemma hydration_validation_failure_witness :
  let w := Fixture.served [Fixture.unauthorized] Fixture.returning in
  let w' := snd (@AuthProvider.mount Fixture.platform w) in
  authState w' = signed_out
  /\ store w' !! "auth_token" = None /\ store w' !! "user_data" = None.
Proof.
  intros w.
  destruct (@hydration_validation_failure Fixture.platform w "t0k3n"
              Fixture.ann_text)
    as (w' & Hrun & Hs & _ & Hst);
    [reflexivity | reflexivity | discriminate | discriminate | | ].
  - intros response w1 Hcall. vm_compute in Hcall. discriminate Hcall.
  - rewrite Hrun. cbn [snd]. split; [exact Hs|]. apply Hst.
    change w' with (snd (Ok tt, w')). rewrite <- Hrun. vm_compute. reflexivity.
Defined.

Lemma hydration_delete_failure :
  let w := Fixture.flaky [false; false; false; true]
             (Fixture.served [Fixture.unauthorized] Fixture.returning) in
  let w' := snd (@AuthProvider.mount Fixture.platform w) in
  fst (@AuthProvider.mount Fixture.platform w) = Ok tt
  /\ authState w' = signed_out
  /\ store w' !! "auth_token" = Some "t0k3n"
  /\ store w' !! "user_data" = Some Fixture.ann_text.
Proof. vm_compute. repeat split. Qed.

Lemma hydration_without_credentials_witness :
  let w' := snd (@AuthProvider.mount Fixture.platform Fixture.blank) in
  authState w' = signed_out /\ loading w' = false
  /\ issued Fixture.blank w' = [].
Proof.
  destruct (@hydration_without_credentials Fixture.platform Fixture.blank)
    as (w' & Hrun & Hs & Hl & Hi & _); [left; reflexivity|].
  rewrite Hrun. cbn [snd]. auto.
Defined.

(** ** Login and registration *)

Lemma get_prop_own (props : list (string * value)) (k : string) (v : value) :
  assoc k props = Some v -> get_prop (VObj props) k = Ok v.
Proof. unfold get_prop. now intros ->. Qed.

Lemma grants_accepted (response u : value) (tok : string) :
  grants response u tok ->
  AuthProvider.success_with_data response = Ok true
  /\ exists data, get_prop response "data" = Ok data
       /\ get_prop data "user" = Ok u
       /\ get_prop data "token" = Ok (VStr tok).
Proof.
  intros (props & dprops & -> & Hsucc & Hdata & Huser & Htok).
  unfold AuthProvider.success_with_data.
  rewrite (get_prop_own _ _ _ Hsucc), (get_prop_own _ _ _ Hdata).
  split; [reflexivity|]. exists (VObj dprops).
  auto using get_prop_own.
Qed.

Section Sessions.
Context `{Platform}.

Lemma login_attempt_shape (email password : string) :
  AuthProvider.login_attempt email password
  = session_attempt (authApi.login email password).
Proof. reflexivity. Qed.

Lemma register_attempt_shape (userData : value) :
  AuthProvider.register_attempt userData
  = session_attempt (authApi.register userData).
Proof. reflexivity. Qed.

(** The three ways a [try] block can end: with a session (both entries
    written, the state set, the token entry being what the store keeps for
    the token of the session), declined (nothing touched), or thrown (the
    state untouched, and the store too unless it is the write of the user
    entry that failed). *)
Lemma session_attempt_run (call : M value) (w : World) :
  framed call ->
  exists r w', session_attempt call w = (r, w')
    /\ loading w' = loading w
    /\ (store_failures w <= store_failures w')%nat
    /\ match r with
       | Ok true =>
           exists u t tok text,
             store w' = <["user_data" := text]> (<["auth_token" := tok]> (store w))
             /\ authState w' = {| user := u; token := t;
                                  isAuthenticated := true |}
             /\ SecureStorage.stored_text t = Some tok
       | Ok false => store w' = store w /\ authState w' = authState w
       | Throw e =>
           authState w' = authState w
           /\ (store w' = store w
               \/ (e = StoreError "user_data"
                   /\ (store_failures w < store_failures w')%nat
                   /\ exists tok, store w' = <["auth_token" := tok]> (store w)))
       end.
Proof.
  intros Hcall. unfold session_attempt. unfold bind at 1.
  pose proof (Hcall w) as (Hst & Hau & Hlo & Hfa & _).
  destruct (call w) as [[response|e] w1]; cbn [snd] in *.
  2:{ do 2 eexists. split; [reflexivity|]. auto. }
  unfold bind at 1, lift at 1.
  destruct (AuthProvider.success_with_data response) as [[|]|e].
  2:{ unfold ret. do 2 eexists. split; [reflexivity|]. auto. }
  2:{ do 2 eexists. split; [reflexivity|]. auto. }
  unfold bind at 1, lift at 1.
  destruct (get_prop response "data") as [data|e].
  2:{ do 2 eexists. split; [reflexivity|]. auto. }
  unfold bind at 1, lift at 1.
  destruct (get_prop data "user") as [u|e].
  2:{ do 2 eexists. split; [reflexivity|]. auto. }
  unfold bind at 1, lift at 1.
  destruct (get_prop data "token") as [t|e].
  2:{ do 2 eexists. split; [reflexivity|]. auto. }
  destruct (setItemAsync_run "auth_token" t w1)
    as (w2 & Hoff2 & [(tok & Htok & Hrun2 & Hst2 & _ & Htr2) | (Hrun2 & Hst2 & Htr2)]).
  2:{ rewrite (bind_throw _ _ _ _ _ Hrun2). do 2 eexists. split; [reflexivity|].
      destruct Hoff2 as (Hau2 & Hlo2 & _). observe. rewrite Htr2. observe.
      repeat split; try congruence; try lia. left. congruence. }
  rewrite (bind_ok _ _ _ _ _ Hrun2).
  destruct (setItemAsync_run "user_data" (stringified u) w2)
    as (w3 & Hoff3 & [(text & Htext & Hrun3 & Hst3 & _ & Htr3) | (Hrun3 & Hst3 & Htr3)]).
  2:{ rewrite (bind_throw _ _ _ _ _ Hrun3). do 2 eexists. split; [reflexivity|].
      destruct Hoff2 as (Hau2 & Hlo2 & _). destruct Hoff3 as (Hau3 & Hlo3 & _).
      observe. rewrite Htr3, Htr2. observe.
      repeat split; try congruence; try lia.
      right. repeat split; try lia. exists tok. congruence. }
  rewrite (bind_ok _ _ _ _ _ Hrun3). unfold bind, setAuthState, ret.
  do 2 eexists. split; [reflexivity|].
  destruct Hoff2 as (Hau2 & Hlo2 & _). destruct Hoff3 as (Hau3 & Hlo3 & _).
  observe. rewrite Htr3, Htr2.
  repeat split; try congruence; try lia.
  exists u, t, tok, text. split; [congruence|]. split; [reflexivity | exact Htok].
Qed.

(** C1 (as amended). When the envelope of [auth.login] is a failure, or
    when anything is thrown inside the call, [login] returns [false] and the
    session state is what it was. The store is what it was too, except when
    the error is the failure of the write of the user entry: then the token
    written just before it stays behind. *)
Theorem login_failure (email password : string) (w : World) :
  (exists response w1,
     authApi.login email password w = (Ok response, w1)
     /\ AuthProvider.success_with_data response = Ok false)
  \/ (exists e w1, AuthProvider.login_attempt email password w = (Throw e, w1)) ->
  exists w', AuthProvider.login email password w = (Ok false, w')
    /\ authState w' = authState w
    /\ (store w' = store w
        \/ exists tok w1,
             AuthProvider.login_attempt email password w
             = (Throw (StoreError "user_data"), w1)
             /\ store w' = <["auth_token" := tok]> (store w)).
Proof.
  intros Hfail.
  destruct (session_attempt_run (authApi.login email password) w
              (framed_post _ _ _)) as (r & w1 & Hrun & _ & _ & Hcase).
  rewrite <- login_attempt_shape in Hrun.
  assert (Hr : r = Ok false \/ exists e, r = Throw e).
  { destruct Hfail as [(response & w2 & Hcall & Henv) | (e & w2 & Hthrow)].
    - left. revert Hrun. unfold AuthProvider.login_attempt.
      rewrite (bind_ok _ _ _ _ _ Hcall). unfold bind, lift. rewrite Henv.
      unfold ret. congruence.
    - right. exists e. congruence. }
  unfold AuthProvider.login.
  destruct Hr as [-> | (e & ->)].
  - rewrite (try_catch_ok _ _ _ _ _ Hrun). exists w1.
    split; [reflexivity|]. destruct Hcase as (Hst & Hau). auto.
  - rewrite (try_catch_throw _ _ _ _ _ Hrun). unfold bind, console_error, ret.
    eexists. split; [reflexivity|]. world_simpl.
    destruct Hcase as (Hau & [Hst | (-> & _ & tok & Hst)]); auto.
    split; [exact Hau|]. right. exists tok, w1. auto.
Qed.

(** C2 (as amended). [auth.login] resolves with a success envelope that
    carries a user and a token, and the two writes to the store succeed (in
    the world [w1] reached by the call, the platform fails neither of the
    next two store operations): [login] returns [true], the store holds
    that token and the serialised user under their keys, and the session is
    authenticated with that user and token. *)
Theorem login_success (email password : string) (w w1 : World)
    (response u : value) (tok text : string) :
  authApi.login email password w = (Ok response, w1) ->
  grants response u tok ->
  JSON_stringify u = Some text ->
  hd false (store_faults w1) = false ->
  hd false (tl (store_faults w1)) = false ->
  exists w', AuthProvider.login email password w = (Ok true, w')
    /\ store w' = <["user_data" := text]> (<["auth_token" := tok]> (store w))
    /\ authState w' = {| user := u; token := VStr tok; isAuthenticated := true |}.
Proof.
  intros Hcall Hgrants Htext Hf1 Hf2.
  destruct (grants_accepted _ _ _ Hgrants)
    as (Hacc & data & Hdata & Huser & Htok).
  pose proof (framed_post apiClient "/auth/login"
                (VObj [("email", VStr email); ("password", VStr password)]) w)
    as (Hst & _).
  change (ApiClient.post _ _ _ w) with (authApi.login email password w) in Hst.
  rewrite Hcall in Hst. cbn [snd] in Hst.
  unfold AuthProvider.login, AuthProvider.login_attempt.
  erewrite try_catch_ok; [eexists; split; [reflexivity|]|].
  2:{ rewrite (bind_ok _ _ _ _ _ Hcall).
      rewrite Hacc, Hdata. unfold bind at 1, lift at 1.
      unfold bind at 1, lift at 1. rewrite Huser.
      unfold bind at 1, lift at 1. rewrite Htok.
      unfold bind at 1, lift at 1.
      rewrite (bind_ok _ _ _ _ _ (setItemAsync_ok _ _ _ Hf1)).
      unfold stringified. rewrite Htext.
      rewrite (bind_ok _ _ _ _ _
                 (setItemAsync_ok _ _ (with_store _ (with_store_faults _ w1)) Hf2)).
      unfold bind, setAuthState, ret. reflexivity. }
  world_simpl. rewrite Hst. split; reflexivity.
Qed.

End Sessions.

Lemma login_failure_witness :
  let w := Fixture.served [Fixture.declined] Fixture.blank in
  let w' := snd (@AuthProvider.login Fixture.platform "ann@clinic.test" "secret" w) in
  fst (@AuthProvider.login Fixture.platform "ann@clinic.test" "secret" w) = Ok false
  /\ authState w' = authState w
  /\ store w' = store w.
Proof.
  intros w.
  destruct (@login_failure Fixture.platform "ann@clinic.test" "secret" w)
    as (w' & Hrun & Hau & Hst).
  - left. exists (Fixture.envelope false VNull).
    exists (snd (@authApi.login Fixture.platform "ann@clinic.test" "secret" w)).
    split; vm_compute; reflexivity.
  - rewrite Hrun. cbn [fst snd]. split; [reflexivity|]. split; [exact Hau|].
    destruct Hst as [Hst | (tok & w1 & Hthrow & _)]; [exact Hst|].
    vm_compute in Hthrow. discriminate Hthrow.
Defined.

(** The token is written, the write of the user entry fails: [login]
    returns [false] with the token left in a store that had none. *)
Lemma login_partial_write :
  let w := Fixture.flaky [false; false; true]
             (Fixture.served [Fixture.accepted] Fixture.blank) in
  let w' := snd (@AuthProvider.login Fixture.platform "ann@clinic.test" "secret" w) in
  fst (@AuthProvider.login_attempt Fixture.platform "ann@clinic.test" "secret" w)
  = Throw (StoreError "user_data")
  /\ fst (@AuthProvider.login Fixture.platform "ann@clinic.test" "secret" w) = Ok false
  /\ store w !! "auth_token" = None
  /\ store w' !! "auth_token" = Some "t0k3n".
Proof. vm_compute. repeat split. Qed.

Lemma login_success_witness :
  let w := Fixture.served [Fixture.accepted] Fixture.blank in
  let w' := snd (@AuthProvider.login Fixture.platform "ann@clinic.test" "secret" w) in
  fst (@AuthProvider.login Fixture.platform "ann@clinic.test" "secret" w) = Ok true
  /\ store w' !! "auth_token" = Some "t0k3n"
  /\ store w' !! "user_data" = Some Fixture.ann_text
  /\ authState w' = {| user := Fixture.ann; token := VStr "t0k3n";
                       isAuthenticated := true |}.
Proof.
  intros w.
  destruct (@login_success Fixture.platform "ann@clinic.test" "secret" w
              (snd (@authApi.login Fixture.platform "ann@clinic.test" "secret" w))
              (Fixture.envelope true (Fixture.session_data "t0k3n"))
              Fixture.ann "t0k3n" Fixture.ann_text)
    as (w' & Hrun & Hst & Hau);
    [vm_compute; reflexivity | | reflexivity | reflexivity | reflexivity | ].
  - do 2 eexists. repeat split; reflexivity.
  - rewrite Hrun. cbn [fst snd]. rewrite Hst.
    repeat split; try exact Hau; vm_compute; reflexivity.
Defined.

(** The server grants the session, the store refuses the token: [login]
    returns [false]. *)
Lemma login_refused_by_store :
  let w := Fixture.flaky [false; true]
             (Fixture.served [Fixture.accepted] Fixture.blank) in
  let w' := snd (@AuthProvider.login Fixture.platform "ann@clinic.test" "secret" w) in
  fst (@authApi.login Fixture.platform "ann@clinic.test" "secret" w)
  = Ok (Fixture.envelope true (Fixture.session_data "t0k3n"))
  /\ fst (@AuthProvider.login Fixture.platform "ann@clinic.test" "secret" w) = Ok false
  /\ store w' !! "auth_token" = None
  /\ isAuthenticated (authState w') = false.
Proof. vm_compute. repeat split. Qed.

(** ** Requests *)

Lemma issued_new (w w' : World) (new : list Request) :
  requests (trace w') = (requests (trace w) ++ new)%list -> issued w w' = new.
Proof.
  unfold issued. intros ->. rewrite List.skipn_app, skipn_all, Nat.sub_diag.
  reflexivity.
Qed.

Lemma handleResponse_requests (response : Response) (w : World) :
  requests (trace (snd (ApiClient.handleResponse response w)))
  = requests (trace w).
Proof.
  unfold ApiClient.handleResponse.
  destruct (ApiClient.declares_json response).
  2:{ destruct (negb (resp_ok response)); reflexivity. }
  unfold bind, Response_json, lift, throw, ret.
  destruct (resp_json response) as [data|];
    [destruct (negb (resp_ok response));
     [destruct (get_prop data "message") as [message|];
      [destruct (truthy message); [|destruct (get_prop data "error")]|]|]|];
    cbv beta iota; cbn [snd]; rewrite requests_log; apply app_nil_r.
Qed.

Lemma getAuthHeaders_run (w : World) :
  exists w1, offline w w1
    /\ ((hd false (store_faults w) = true
         /\ ApiClient.getAuthHeaders w = (Throw (StoreError "auth_token"), w1))
        \/ (hd false (store_faults w) = false
            /\ exists h, ApiClient.getAuthHeaders w = (Ok h, w1)
                 /\ carries_auth (store w) h)).
Proof.
  unfold ApiClient.getAuthHeaders.
  destruct (getItemAsync_run "auth_token" w)
    as (w1 & Hoff & _ & _ & [(Hf & Hrun & _) | (Hf & Hrun & _)]);
    exists w1; (split; [exact Hoff|]).
  2:{ left. now rewrite (bind_throw _ _ _ _ _ Hrun). }
  right. split; [exact Hf|]. rewrite (bind_ok _ _ _ _ _ Hrun). cbv zeta.
  unfold carries_auth.
  destruct (store w !! "auth_token") as [tok|] eqn:Hstored.
  - destruct (String.eqb_spec tok "") as [-> | Hne]; cbn [negb]; unfold ret;
      eexists; (split; [reflexivity|]); (split; [reflexivity|]); intros v;
      cbn; split.
    + discriminate.
    + intros (tok' & [= <-] & Hne & _). congruence.
    + intros [= <-]. eauto.
    + intros (tok' & [= <-] & _ & ->). reflexivity.
  - unfold ret. eexists. split; [reflexivity|]. split; [reflexivity|].
    intros v; cbn; split; [discriminate | intros (tok' & [=] & _)].
Qed.

Section Requests.
Context `{Platform}.

(** What the operations share: read the headers, send one request, hand
    the response over. *)
Lemma round_trip_run (mk : Record_ -> Request) (w : World) :
  exists r w',
    bind ApiClient.getAuthHeaders
      (fun headers =>
         bind (fetch (mk headers))
              (fun response => ApiClient.handleResponse response)) w
    = (r, w')
    /\ ((hd false (store_faults w) = true /\ issued w w' = [])
        \/ (hd false (store_faults w) = false
            /\ exists h, carries_auth (store w) h /\ issued w w' = [mk h])).
Proof.
  destruct (getAuthHeaders_run w)
    as (w1 & (_ & _ & _ & Hreq) & [(Hf & Hrun) | (Hf & h & Hrun & Hh)]).
  - rewrite (bind_throw _ _ _ _ _ Hrun). do 2 eexists. split; [reflexivity|].
    left. split; [exact Hf|]. now apply issued_none.
  - rewrite (bind_ok _ _ _ _ _ Hrun). unfold bind, fetch.
    set (w2 := with_network (tl (network w1)) (log (EvFetch (mk h)) w1)).
    assert (Hreq2 : requests (trace w2) = (requests (trace w) ++ [mk h])%list)
      by (unfold w2; world_simpl; rewrite requests_app, Hreq; reflexivity).
    destruct (hd Rejects (network w1)) as [|response].
    + do 2 eexists. split; [reflexivity|]. right. split; [exact Hf|].
      exists h. split; [exact Hh|]. now apply issued_new.
    + pose proof (handleResponse_requests response w2) as Hreq3.
      destruct (ApiClient.handleResponse response w2) as [r w3].
      do 2 eexists. split; [reflexivity|]. right. split; [exact Hf|].
      exists h. split; [exact Hh|]. apply issued_new. cbn [snd] in Hreq3.
      congruence.
Qed.

(** C6 (as amended). Whatever operation of the client sends a request, the
    request declares a JSON content type, and it carries
    [Authorization: Bearer <token>] exactly when the store holds a token
    that is not the empty string at the time of the call. *)
Theorem request_headers (self : ApiClient.t) (c : client_call) (w : World) :
  forall req, In req (issued w (snd (perform self c w))) ->
    carries_auth (store w) (req_headers req).
Proof.
  intros req.
  assert (Hshape : forall mk : Record_ -> Request,
             (forall h, req_headers (mk h) = h) ->
             In req (issued w (snd (bind ApiClient.getAuthHeaders
                      (fun headers =>
                         bind (fetch (mk headers))
                              (fun response => ApiClient.handleResponse response)) w))) ->
             carries_auth (store w) (req_headers req)).
  { intros mk Hmk.
    destruct (round_trip_run mk w) as (r & w' & Hrun & Hsent).
    rewrite Hrun. cbn [snd].
    destruct Hsent as [(_ & ->) | (_ & h & Hh & ->)]; cbn [In].
    - tauto.
    - intros [<- | []]. now rewrite Hmk. }
  destruct c as [endpoint params | endpoint data | endpoint data | endpoint];
    cbn [perform].
  - unfold ApiClient.get, URL_new.
    destruct (URL_parse (ApiClient.baseURL self ++ endpoint)) as [u|].
    + unfold bind at 1, ret at 1. apply Hshape. reflexivity.
    + unfold bind at 1, throw. cbn [snd]. rewrite issued_none by reflexivity.
      intros [].
  - apply Hshape. reflexivity.
  - apply Hshape. reflexivity.
  - apply Hshape. reflexivity.
Qed.

End Requests.

Lemma request_headers_witness :
  let w := Fixture.served [Fixture.declined] Fixture.signed_in in
  let req := {| req_url := "http://192.168.0.187:3000/api/patients";
                req_method := "GET";
                req_headers := [("Content-Type", "application/json");
                                ("Authorization", "Bearer t0k3n")];
                req_body := None |} in
  issued w (snd (@perform Fixture.platform (@apiClient Fixture.platform)
                   (CallGet "/patients" None) w)) = [req]
  /\ carries_auth (store w) (req_headers req).
Proof.
  intros w req. split; [vm_compute; reflexivity|].
  apply (@request_headers Fixture.platform (@apiClient Fixture.platform)
           (CallGet "/patients" None) w req).
  vm_compute. left. reflexivity.
Defined.

(** A server that hands out the empty string as a token: [login] stores
    it and authenticates the session, and the next request goes out
    without an [Authorization] header although the token entry exists. *)
Lemma empty_token_no_header :
  let w0 := Fixture.served
              [Fixture.json_response 200
                 (Fixture.envelope true (Fixture.session_data ""));
               Fixture.declined]
              Fixture.blank in
  let w := snd (@AuthProvider.login Fixture.platform "ann@clinic.test" "secret" w0) in
  let w' := snd (@perform Fixture.platform (@apiClient Fixture.platform)
                   (CallGet "/patients" None) w) in
  isAuthenticated (authState w) = true
  /\ store w !! "auth_token" = Some ""
  /\ map (fun req => assoc "Authorization" (req_headers req)) (issued w w')
     = [None].
Proof. vm_compute. repeat split. Qed.

(** ** The URL of a [get] *)

Lemma append_all (l : list (string * string)) (u : URL) :
  let u' := fold_left (fun url kv => searchParams_append (fst kv) (snd kv) url)
                      l u in
  url_prefix u' = url_prefix u /\ url_hash u' = url_hash u
  /\ url_params u' = (url_params u ++ l)%list
  /\ url_query u' = match l with
                    | [] => url_query u
                    | _ => Some (urlencoded_serialize (url_params u ++ l))
                    end.
Proof.
  cbv zeta. revert u. induction l as [|kv l IH]; intros u; cbn [fold_left].
  - rewrite app_nil_r. auto.
  - destruct (IH (searchParams_append (fst kv) (snd kv) u))
      as (Hp & Hh & Hl & Hq).
    rewrite Hp, Hh, Hl, Hq. cbn [searchParams_append url_prefix
      url_hash url_params url_query]. rewrite <- app_assoc. cbn [app].
    destruct kv as [k v]. cbn [fst snd]. repeat split.
    destruct l; reflexivity.
Qed.

Lemma append_empty (s : string) : s ++ "" = s.
Proof.
  induction s as [|c s IH]; [reflexivity|].
  change (String c s ++ "") with (String c (s ++ "")). now rewrite IH.
Qed.

Lemma plain_url_toString (s : string) (l : list (string * string)) :
  URL_toString
    (fold_left (fun url kv => searchParams_append (fst kv) (snd kv) url)
               l (plain_url s))
  = s ++ query_suffix l.
Proof.
  destruct (append_all l (plain_url s)) as (Hp & Hh & _ & Hq). cbv zeta in *.
  unfold URL_toString. rewrite Hp, Hh, Hq. cbn [plain_url url_prefix url_hash
    url_params url_query app]. unfold query_suffix.
  rewrite append_empty. now destruct l.
Qed.

Lemma assoc_absent {A : Type} (k : string) (l : list (string * A)) :
  ~ In k (map fst l) -> assoc k l = None.
Proof.
  induction l as [|[k' a] l IH]; [reflexivity|]. cbn [map fst In assoc].
  intros Hk. destruct (String.eqb_spec k k') as [-> | _]; [tauto|].
  apply IH. tauto.
Qed.

Lemma rec_create_last (k v : string) (o : Record_) :
  array_index k = None -> rec_create k v o = (o ++ [(k, v)])%list.
Proof.
  intros Hk. induction o as [|[k' v'] o IH]; [reflexivity|].
  cbn [rec_create app]. unfold key_before. rewrite Hk. now rewrite IH.
Qed.

(** A new name that is not an array index goes to the end, unless it is
    [__proto__], which goes nowhere. *)
Lemma rec_set_fresh (k v : string) (o : Record_) :
  array_index k = None -> ~ In k (map fst o) ->
  rec_set k v o
  = (o ++ if String.eqb k "__proto__" then [] else [(k, v)])%list.
Proof.
  intros Hk Hnew. unfold rec_set. rewrite (assoc_absent _ _ Hnew).
  destruct (String.eqb k "__proto__"); [now rewrite app_nil_r|].
  now apply rec_create_last.
Qed.

Lemma rec_literal_from (kvs : list (string * string)) (o : Record_) :
  List.NoDup (map fst (o ++ kvs)%list) ->
  Forall (fun kv => array_index (fst kv) = None) kvs ->
  fold_left (fun o kv => rec_set (fst kv) (snd kv) o) kvs o
  = (o ++ List.filter (fun kv => negb (String.eqb (fst kv) "__proto__")) kvs)%list.
Proof.
  revert o. induction kvs as [|[k v] kvs IH]; intros o Hnd Hni;
    cbn [fold_left List.filter fst snd].
  - now rewrite app_nil_r.
  - inversion Hni as [|? ? Hk Hrest]; subst. cbn [fst] in Hk.
    rewrite map_app in Hnd. cbn [map fst] in Hnd.
    pose proof (List.NoDup_remove_1 _ _ _ Hnd) as Hnd1.
    pose proof (List.NoDup_remove_2 _ _ _ Hnd) as Hnd2.
    rewrite rec_set_fresh; [| exact Hk |].
    + destruct (String.eqb k "__proto__"); cbn [negb].
      * rewrite app_nil_r. apply IH; [now rewrite map_app | exact Hrest].
      * rewrite IH; [now rewrite <- app_assoc | | exact Hrest].
        rewrite <- app_assoc, map_app. exact Hnd.
    + intros Hin. apply Hnd2. apply List.in_or_app. now left.
Qed.

(** Names that are distinct and are not array indices are enumerated in
    the order in which the literal lists them, [__proto__] left out. *)
Lemma rec_literal_order (kvs : list (string * string)) :
  List.NoDup (map fst kvs) ->
  Forall (fun kv => array_index (fst kv) = None) kvs ->
  Object_entries (rec_literal kvs)
  = List.filter (fun kv => negb (String.eqb (fst kv) "__proto__")) kvs.
Proof.
  intros Hnd Hni. unfold Object_entries, rec_literal.
  now rewrite rec_literal_from.
Qed.

Lemma key_before_asym (k k' : string) :
  key_before k k' = true -> key_before k' k = false.
Proof.
  unfold key_before.
  destruct (array_index k) as [n|], (array_index k') as [n'|];
    try reflexivity; try discriminate.
  intros Hlt. apply N.ltb_lt in Hlt. apply N.ltb_ge. lia.
Qed.

Lemma key_before_between (b k k' : string) :
  key_before b k' = false -> key_before k k' = true -> key_before b k = false.
Proof.
  unfold key_before.
  destruct (array_index b) as [nb|], (array_index k) as [nk|],
    (array_index k') as [nk'|]; try reflexivity; try discriminate.
  intros H1 H2. apply N.ltb_ge in H1. apply N.ltb_lt in H2.
  apply N.ltb_ge. lia.
Qed.

Lemma rec_update_names (k v : string) (o : Record_) :
  map fst (rec_update k v o) = map fst o.
Proof.
  induction o as [|[k' v'] o IH]; [reflexivity|]. cbn [rec_update].
  destruct (String.eqb_spec k k') as [-> | _]; cbn [map fst];
    [reflexivity | now rewrite IH].
Qed.

Lemma rec_create_names (P : string -> Prop) (k v : string) (o : Record_) :
  P k -> Forall P (map fst o) -> Forall P (map fst (rec_create k v o)).
Proof.
  intros Hk. induction o as [|[k' v'] o IH]; cbn [rec_create map fst];
    intros Ho.
  - constructor; [exact Hk | constructor].
  - destruct (key_before k k'); cbn [map fst].
    + constructor; [exact Hk | exact Ho].
    + inversion Ho; subst. constructor; [assumption | now apply IH].
Qed.

(** A new name is put where it belongs. *)
Lemma rec_create_ordered (k v : string) (o : Record_) :
  enumeration_ordered (map fst o) ->
  enumeration_ordered (map fst (rec_create k v o)).
Proof.
  induction o as [|[k' v'] o IH]; cbn [rec_create map fst enumeration_ordered].
  - intros _. split; [constructor | exact I].
  - intros (Hall & Hord).
    destruct (key_before k k') eqn:Hb; cbn [map fst enumeration_ordered].
    + split; [|split; assumption].
      constructor; [now apply key_before_asym|].
      apply (List.Forall_impl (P := fun b => key_before b k' = false));
        [|exact Hall].
      intros b Hbk. now apply (key_before_between b k k').
    + split; [|now apply IH]. now apply rec_create_names.
Qed.

Lemma rec_set_ordered (k v : string) (o : Record_) :
  enumeration_ordered (map fst o) ->
  enumeration_ordered (map fst (rec_set k v o)).
Proof.
  unfold rec_set. destruct (assoc k o); [now rewrite rec_update_names|].
  destruct (String.eqb k "__proto__"); [auto | apply rec_create_ordered].
Qed.

(** Whatever the literal, its array indices are enumerated first and in
    ascending order. *)
Lemma rec_literal_ordered (kvs : list (string * string)) :
  enumeration_ordered (map fst (Object_entries (rec_literal kvs))).
Proof.
  unfold Object_entries, rec_literal.
  assert (Hfrom : forall o,
             enumeration_ordered (map fst o) ->
             enumeration_ordered
               (map fst (fold_left (fun o kv => rec_set (fst kv) (snd kv) o)
                           kvs o))).
  { induction kvs as [|[k v] kvs IH]; intros o Ho; cbn [fold_left fst snd];
      [exact Ho|]. apply IH. now apply rec_set_ordered. }
  apply Hfrom. exact I.
Qed.

Lemma URL_toString_appended (l : list (string * string)) (u : URL) :
  URL_toString
    (fold_left (fun url kv => searchParams_append (fst kv) (snd kv) url) l u)
  = with_query l u.
Proof.
  destruct (append_all l u) as (Hp & Hh & _ & Hq). cbv zeta in *.
  unfold URL_toString, with_query. rewrite Hp, Hh, Hq. now destruct l.
Qed.

Section GetUrl.
Context `{Platform}.

(** C8 (as amended). When base endpoint and path together parse as a
    URL, [get] requests that URL as the platform has parsed it, with the
    parameters appended to its query: form-urlencoded, joined by [&], after
    the parameters it had and before its fragment, in the order
    [Object.entries] enumerates them. When base endpoint and path are a
    URL in normal form already, without query and fragment, that is their
    concatenation followed by [?] and the parameters (by nothing when there
    are none). The order of enumeration is the order in which a literal
    lists the names when they are distinct and none is an array index, a
    [__proto__] being left out; names that are array indices are always
    enumerated first, in ascending order. In particular the parameters
    [{search: "doe"}] give the query [?search=doe]. *)
Theorem get_request_url (self : ApiClient.t) (endpoint : string)
    (params : option Record_) (u : URL) (w : World) :
  URL_parse (ApiClient.baseURL self ++ endpoint) = Some u ->
  hd false (store_faults w) = false ->
  let entries := match params with
                 | Some o => Object_entries o
                 | None => []
                 end in
  (exists req,
     issued w (snd (ApiClient.get self endpoint params w)) = [req]
     /\ req_method req = "GET"
     /\ req_url req = with_query entries u
     /\ (u = plain_url (ApiClient.baseURL self ++ endpoint) ->
         req_url req
         = (ApiClient.baseURL self ++ endpoint) ++ query_suffix entries))
  /\ (forall kvs,
        List.NoDup (map fst kvs) ->
        Forall (fun kv => array_index (fst kv) = None) kvs ->
        Object_entries (rec_literal kvs)
        = List.filter (fun kv => negb (String.eqb (fst kv) "__proto__")) kvs)
  /\ (forall kvs,
        enumeration_ordered (map fst (Object_entries (rec_literal kvs))))
  /\ query_suffix (Object_entries (rec_literal [("search", "doe")]))
     = "?search=doe".
Proof.
  intros Hparse Hf. cbv zeta.
  split; [|split; [exact rec_literal_order
                  |split; [exact rec_literal_ordered | reflexivity]]].
  unfold ApiClient.get, URL_new. rewrite Hparse. unfold bind at 1, ret at 1.
  match goal with
  | |- context [fetch {| req_url := ?u; req_method := _; req_headers := _;
                         req_body := _ |}] =>
      destruct (round_trip_run
                  (fun headers => {| req_url := u; req_method := "GET";
                                     req_headers := headers; req_body := None |})
                  w) as (r & w' & Hrun & Hsent)
  end.
  rewrite Hrun. cbn [snd].
  destruct Hsent as [(Hf' & _) | (_ & h & _ & ->)]; [congruence|].
  eexists. split; [reflexivity|]. split; [reflexivity|]. cbn [req_url]. split.
  - destruct params as [o|];
      [apply URL_toString_appended | apply (URL_toString_appended [])].
  - intros ->. destruct params as [o|].
    + apply plain_url_toString.
    + apply (plain_url_toString _ []).
Qed.

End GetUrl.

Lemma get_request_url_witness :
  let w := Fixture.served [Fixture.declined] Fixture.signed_in in
  exists req,
    issued w (snd (@patientsApi.getAll Fixture.platform
                     (Some (rec_literal [("search", "doe")])) w)) = [req]
    /\ req_url req = "http://192.168.0.187:3000/api/patients?search=doe".
Proof.
  intros w.
  destruct (@get_request_url Fixture.platform (@apiClient Fixture.platform)
              "/patients" (Some (rec_literal [("search", "doe")]))
              (plain_url "http://192.168.0.187:3000/api/patients") w)
    as ((req & Hsent & _ & _ & Hurl) & _); [reflexivity | reflexivity |].
  exists req. split; [exact Hsent|]. rewrite (Hurl eq_refl). reflexivity.
Defined.

(** The request does not list the parameters as they were supplied.
    Parameters named by numbers overtake the others; a parameter named
    [__proto__] in the literal is not sent at all; and behind a path with a
    fragment the parameters go before the fragment, not after the path. *)
Lemma get_url_not_as_supplied :
  let w := Fixture.served [Fixture.declined] Fixture.signed_in in
  let sent (endpoint : string) (supplied : list (string * string)) :=
    map req_url
      (issued w (snd (@ApiClient.get Fixture.platform
                        (@apiClient Fixture.platform) endpoint
                        (Some (rec_literal supplied)) w))) in
  sent "/patients" [("search", "doe"); ("10", "x"); ("9", "y")]
  = ["http://192.168.0.187:3000/api/patients?9=y&10=x&search=doe"]
  /\ sent "/patients" [("search", "doe"); ("__proto__", "x"); ("page", "2")]
     = ["http://192.168.0.187:3000/api/patients?search=doe&page=2"]
  /\ sent "/patients#list" [("search", "doe")]
     = ["http://192.168.0.187:3000/api/patients?search=doe#list"].
Proof. vm_compute. repeat split. Qed.

(** ** The two entries stay together *)

Lemma paired_settled (w w' : World) :
  paired (store w) -> settled w w' ->
  store_failures w' = store_failures w -> paired (store w').
Proof.
  unfold paired. intros Hp (_ & Hst) Hsame.
  destruct Hst as [-> | [-> | [(tok & text & ->) | Hlt]]].
  - exact Hp.
  - destruct (absent_after_clear (store w)) as (-> & ->). tauto.
  - rewrite lookup_insert_ne by discriminate.
    rewrite !lookup_insert_eq. split; eauto.
  - lia.
Qed.

Lemma settled_by_clear (w wx w1 : World) :
  store wx = store w ->
  (store_failures w <= store_failures wx)%nat ->
  (store w1 = base.delete "user_data" (base.delete "auth_token" (store wx))
   /\ trace w1 = trace wx)
  \/ (delete_failed w1 = true
      /\ (store_failures wx < store_failures w1)%nat
      /\ (store w1 = store wx \/ store w1 = base.delete "auth_token" (store wx))) ->
  settled w (with_loading false w1).
Proof.
  intros Hst Hle Hclear. unfold settled, store_failures in *. world_simpl.
  destruct Hclear as [(-> & ->) | (_ & Hlt & _)].
  - rewrite Hst. auto.
  - split; [lia|]. do 3 right. lia.
Qed.

Ltac settles_by_clear :=
  match goal with
  | |- context [AuthProvider.clearAuth ?wx] =>
      let w1 := fresh "w" in
      let Hrun := fresh "Hrun" in
      let Hst := fresh "Hst" in
      destruct (clearAuth_run wx) as (w1 & Hrun & _ & _ & _ & _ & Hst);
      rewrite Hrun; unfold setLoading; cbv beta iota; cbn [snd];
      apply (settled_by_clear _ wx w1); [ | | exact Hst]
  end.

Section Pairing.
Context `{Platform}.

Lemma mount_settles (w : World) : settled w (snd (AuthProvider.mount w)).
Proof.
  unfold AuthProvider.mount, AuthProvider.loadStoredAuth.
  unfold bind at 1 2. unfold setAuthState, setLoading at 1.
  set (w0 := with_loading true (with_authState signed_out w)).
  unfold try_finally, try_catch.
  destruct (hd false (store_faults w0)) eqn:Hf1.
  { rewrite (bind_throw _ _ _ _ _ (getItemAsync_fail _ _ Hf1)).
    unfold bind at 1, console_error. settles_by_clear; [reflexivity|].
    subst w0. observe. lia. }
  rewrite (bind_ok _ _ _ _ _ (getItemAsync_ok _ _ Hf1)).
  set (w1 := with_store_faults (tl (store_faults w0)) w0).
  destruct (hd false (store_faults w1)) eqn:Hf2.
  { rewrite (bind_throw _ _ _ _ _ (getItemAsync_fail _ _ Hf2)).
    unfold bind at 1, console_error. settles_by_clear; [reflexivity|].
    subst w1 w0. observe. lia. }
  rewrite (bind_ok _ _ _ _ _ (getItemAsync_ok _ _ Hf2)).
  set (w2 := with_store_faults (tl (store_faults w1)) w1).
  assert (Hquiet : settled w (with_loading false w2))
    by (unfold settled, store_failures; world_simpl; auto).
  destruct (store w0 !! "auth_token") as [tok|]; [|exact Hquiet].
  destruct (store w1 !! "user_data") as [ud|]; [|exact Hquiet].
  destruct (negb (tok =? "")%string && negb (ud =? "")%string); [|exact Hquiet].
  unfold bind at 1.
  destruct (JSON_parse ud) as [parsed|].
  2:{ unfold throw. unfold bind at 1, console_error.
      settles_by_clear; [reflexivity|]. subst w2 w1 w0. observe. lia. }
  unfold ret at 1. unfold try_catch. unfold bind at 1.
  pose proof (framed_get apiClient "/auth/me" None w2) as (Hst & _ & _ & Hle & _).
  change (ApiClient.get _ _ _ w2) with (authApi.getCurrentUser w2) in Hst, Hle.
  destruct (authApi.getCurrentUser w2) as [[response|e] w3]; cbn [snd] in Hst, Hle.
  2:{ settles_by_clear; [exact Hst | exact Hle]. }
  unfold bind at 1, lift at 1.
  destruct (AuthProvider.success_with_data response) as [[|]|e].
  - unfold bind at 1, lift at 1.
    destruct (get_prop response "data") as [data|e].
    + unfold setAuthState, setLoading. cbn [snd].
      unfold settled, store_failures in *. world_simpl. auto.
    + settles_by_clear; [exact Hst | exact Hle].
  - settles_by_clear; [exact Hst | exact Hle].
  - settles_by_clear; [exact Hst | exact Hle].
Qed.

Lemma logout_settles (w : World) : settled w (snd (AuthProvider.logout w)).
Proof.
  unfold AuthProvider.logout, try_finally, try_catch, bind.
  pose proof (framed_post apiClient "/auth/logout" VUndefined w)
    as (Hst & _ & _ & Hle & _).
  change (ApiClient.post _ _ _ w) with (authApi.logout w) in Hst, Hle.
  destruct (authApi.logout w) as [[v|e] w1]; cbn [snd] in Hst, Hle.
  - unfold ret. destruct (clearAuth_run w1) as (w2 & -> & _ & _ & _ & _ & Hclear).
    cbn [snd]. pose proof (settled_by_clear w w1 w2 Hst Hle Hclear) as Hs.
    unfold settled, store_failures in *. world_simpl. exact Hs.
  - unfold console_error.
    destruct (clearAuth_run (log (EvConsoleError "Logout API error:" e) w1))
      as (w2 & -> & _ & _ & _ & _ & Hclear).
    cbn [snd].
    assert (Hs : settled w (with_loading false w2)).
    { apply (settled_by_clear w (log (EvConsoleError "Logout API error:" e) w1) w2);
        [exact Hst | | exact Hclear].
      rewrite store_failures_log. cbn [is_store_failure]. lia. }
    unfold settled, store_failures in *. world_simpl. exact Hs.
Qed.

Lemma session_settles (call : M value) (label : string) (w : World) :
  framed call ->
  settled w
    (snd (try_catch (session_attempt call)
            (fun error => bind (console_error label error) (fun _ => ret false))
            w)).
Proof.
  intros Hcall.
  destruct (session_attempt_run call w Hcall) as (r & w1 & Hrun & _ & Hle & Hcase).
  unfold try_catch. rewrite Hrun. unfold settled.
  destruct r as [[|]|e].
  - cbn [snd]. split; [exact Hle|].
    destruct Hcase as (u & t & tok & text & -> & _). right. right. left. eauto.
  - cbn [snd]. split; [exact Hle|]. destruct Hcase as (-> & _). auto.
  - unfold bind, console_error, ret. cbn [snd]. rewrite store_failures_log.
    cbn [is_store_failure]. world_simpl. split; [lia|].
    destruct Hcase as (_ & [-> | (_ & Hlt & _)]); [auto|]. do 3 right. lia.
Qed.

Lemma operation_settles (op : session_operation) (w : World) :
  settled w (snd (run_operation op w)).
Proof.
  destruct op as [email password | userData | | ]; cbn [run_operation].
  - pose proof (session_settles (authApi.login email password) "Login error:" w
                  (framed_post _ _ _)) as Hs.
    rewrite <- login_attempt_shape in Hs. fold (AuthProvider.login email password) in Hs.
    unfold bind, ret. destruct (AuthProvider.login email password w) as [[b|e] w1];
      exact Hs.
  - pose proof (session_settles (authApi.register userData) "Registration error:"
                  w (framed_post _ _ _)) as Hs.
    rewrite <- register_attempt_shape in Hs. fold (AuthProvider.register userData) in Hs.
    unfold bind, ret. destruct (AuthProvider.register userData w) as [[b|e] w1];
      exact Hs.
  - apply logout_settles.
  - apply mount_settles.
Qed.

(** A hydration whose two reads succeed does nothing to a store in which
    one entry is without the other. *)
Lemma lone_entry_kept (w : World) :
  ~ paired (store w) ->
  hd false (store_faults w) = false ->
  hd false (tl (store_faults w)) = false ->
  exists w', AuthProvider.mount w = (Ok tt, w') /\ store w' = store w.
Proof.
  intros Hlone Hf1 Hf2.
  unfold AuthProvider.mount, AuthProvider.loadStoredAuth.
  unfold bind at 1 2. unfold setAuthState at 1, setLoading at 1.
  set (w0 := with_loading true (with_authState signed_out w)).
  unfold try_finally, try_catch.
  rewrite (bind_ok _ _ _ _ _ (getItemAsync_ok "auth_token" w0 Hf1)).
  set (w1 := with_store_faults (tl (store_faults w0)) w0).
  rewrite (bind_ok _ _ _ _ _ (getItemAsync_ok "user_data" w1 Hf2)).
  change (store w0) with (store w). change (store w1) with (store w).
  unfold paired in Hlone.
  destruct (store w !! "auth_token") as [tok|];
    [destruct (store w !! "user_data") as [ud|]|].
  - exfalso. apply Hlone. split; eauto.
  - unfold ret, setLoading. eexists. split; reflexivity.
  - unfold ret, setLoading. eexists. split; reflexivity.
Qed.

(** C9 (as amended). Token and user entry are both present or both absent
    before an operation of the session manager (login, register, logout,
    hydration), and the operation ends without any store operation having
    failed: then the two entries are again both present or both absent.
    So one can only be left without the other by an operation during which
    a store operation failed. But it can stay that way past that
    operation: a hydration whose two reads of the store succeed leaves a
    store with one entry without the other exactly as it is. *)
Theorem entries_stay_paired (w : World) :
  (forall op,
     paired (store w) ->
     store_failures (snd (run_operation op w)) = store_failures w ->
     paired (store (snd (run_operation op w))))
  /\ (~ paired (store w) ->
      hd false (store_faults w) = false ->
      hd false (tl (store_faults w)) = false ->
      exists w', run_operation DoHydrate w = (Ok tt, w') /\ store w' = store w).
Proof.
  split.
  - intros op Hp Hsame.
    exact (paired_settled _ _ Hp (operation_settles op w) Hsame).
  - exact (lone_entry_kept w).
Qed.

End Pairing.

Lemma entries_stay_paired_witness :
  let w := Fixture.served [Fixture.accepted] Fixture.blank in
  let lone := with_store {[ "auth_token" := "t0k3n" ]} Fixture.blank in
  paired (store (snd (@run_operation Fixture.platform
                        (DoLogin "ann@clinic.test" "secret") w)))
  /\ store (snd (@run_operation Fixture.platform DoHydrate lone)) = store lone.
Proof.
  intros w lone. split.
  - apply (proj1 (@entries_stay_paired Fixture.platform w)).
    + unfold paired. vm_compute. split; intros [x Hx]; discriminate Hx.
    + vm_compute. reflexivity.
  - destruct (proj2 (@entries_stay_paired Fixture.platform lone))
      as (w' & Hrun & Hst); [| reflexivity | reflexivity |].
    + unfold paired. intros [Hp _].
      destruct Hp as [x Hx]; [eexists; vm_compute; reflexivity|].
      vm_compute in Hx. discriminate Hx.
    + rewrite Hrun. exact Hst.
Defined.

(** A login whose second write fails leaves the token alone in the store,
    and a later hydration, during which nothing fails, leaves it there. *)
Lemma lone_token_survives_hydration :
  let w0 := Fixture.flaky [false; false; true]
              (Fixture.served [Fixture.accepted] Fixture.blank) in
  let w1 := snd (@run_operation Fixture.platform
                   (DoLogin "ann@clinic.test" "secret") w0) in
  let w2 := snd (@run_operation Fixture.platform DoHydrate w1) in
  store w0 !! "auth_token" = None /\ store w0 !! "user_data" = None
  /\ store w1 !! "auth_token" = Some "t0k3n" /\ store w1 !! "user_data" = None
  /\ fst (@run_operation Fixture.platform DoHydrate w1) = Ok tt
  /\ store_failures w2 = store_failures w1
  /\ store w2 !! "auth_token" = Some "t0k3n" /\ store w2 !! "user_data" = None.
Proof. vm_compute. repeat split. Qed.

(** * Further properties of the client *)

(** [handleResponse] looks at the response only: its result is the same in
    every world, and all it leaves behind is the record of the one
    [response.json()] of the JSON branch. *)
Lemma handleResponse_pure (response : Response) (w w0 : World) :
  fst (ApiClient.handleResponse response w)
  = fst (ApiClient.handleResponse response w0)
  /\ snd (ApiClient.handleResponse response w)
     = if ApiClient.declares_json response then log EvJson w else w.
Proof.
  unfold ApiClient.handleResponse.
  destruct (ApiClient.declares_json response).
  2:{ destruct (negb (resp_ok response)); split; reflexivity. }
  unfold bind, Response_json, lift, throw, ret.
  destruct (resp_json response) as [data|];
    [destruct (negb (resp_ok response));
     [destruct (get_prop data "message") as [message|];
      [destruct (truthy message); [|destruct (get_prop data "error")]|]|]|];
    split; reflexivity.
Qed.

Section RoundTrip.
Context `{Platform}.

(** Everything about the round trip that the operations share. *)
Lemma round_trip_full (mk : Record_ -> Request) (w : World) :
  exists r w',
    bind ApiClient.getAuthHeaders
      (fun headers =>
         bind (fetch (mk headers))
              (fun response => ApiClient.handleResponse response)) w
    = (r, w')
    /\ ((hd false (store_faults w) = true
         /\ r = Throw (StoreError "auth_token")
         /\ requests (trace w') = requests (trace w)
         /\ network w' = network w)
        \/ (hd false (store_faults w) = false
            /\ network w' = tl (network w)
            /\ r = match hd Rejects (network w) with
                   | Rejects => Throw NetworkError
                   | Resolves response =>
                       fst (ApiClient.handleResponse response w)
                   end
            /\ exists h, carries_auth (store w) h
                 /\ requests (trace w') = (requests (trace w) ++ [mk h])%list)).
Proof.
  destruct (getAuthHeaders_run w)
    as (w1 & (_ & _ & Hnet & Hreq) & [(Hf & Hrun) | (Hf & h & Hrun & Hh)]).
  - rewrite (bind_throw _ _ _ _ _ Hrun). do 2 eexists. split; [reflexivity|].
    left. repeat split; auto.
  - rewrite (bind_ok _ _ _ _ _ Hrun). unfold bind, fetch.
    set (w2 := with_network (tl (network w1)) (log (EvFetch (mk h)) w1)).
    assert (Hreq2 : requests (trace w2) = (requests (trace w) ++ [mk h])%list)
      by (unfold w2; world_simpl; rewrite requests_app, Hreq; reflexivity).
    assert (Hnet2 : network w2 = tl (network w))
      by (unfold w2; world_simpl; now rewrite Hnet).
    rewrite Hnet.
    destruct (hd Rejects (network w)) as [|response].
    + do 2 eexists. split; [reflexivity|]. right. repeat split; auto.
      exists h. split; [exact Hh | exact Hreq2].
    + pose proof (handleResponse_requests response w2) as Hreq3.
      destruct (handleResponse_pure response w2 w) as (Hres & Hworld).
      destruct (ApiClient.handleResponse response w2) as [r w3].
      cbn [fst snd] in *.
      do 2 eexists. split; [reflexivity|]. right. repeat split; auto.
      * rewrite Hworld. now destruct (ApiClient.declares_json response).
      * exists h. split; [exact Hh | congruence].
Qed.

(** Every operation is that round trip for some request, unless it is a
    [get] whose URL does not parse: that one stops before anything
    happens. *)
Lemma perform_round_trip (self : ApiClient.t) (c : client_call) (w : World) :
  (exists endpoint params,
     c = CallGet endpoint params
     /\ URL_parse (ApiClient.baseURL self ++ endpoint) = None
     /\ perform self c w = (Throw (TypeError "Invalid URL"), w))
  \/ (exists mk : Record_ -> Request,
        (forall endpoint params, c = CallGet endpoint params ->
           URL_parse (ApiClient.baseURL self ++ endpoint) <> None)
        /\ perform self c w
           = bind ApiClient.getAuthHeaders
               (fun headers =>
                  bind (fetch (mk headers))
                       (fun response => ApiClient.handleResponse response)) w).
Proof.
  destruct c as [endpoint params | endpoint data | endpoint data | endpoint];
    cbn [perform].
  - unfold ApiClient.get, URL_new.
    destruct (URL_parse (ApiClient.baseURL self ++ endpoint)) as [u|] eqn:Hu.
    + right. eexists. split; [|unfold bind at 1, ret at 1; reflexivity].
      intros ? ? [= <- <-]. congruence.
    + left. exists endpoint, params. auto.
  - right. eexists. split; [discriminate | reflexivity].
  - right. eexists. split; [discriminate | reflexivity].
  - right. eexists. split; [discriminate | reflexivity].
Qed.

End RoundTrip.

Section ClientProperties.
Context `{Platform}.

Lemma framed_put (self : ApiClient.t) (endpoint : string) (data : value) :
  framed (ApiClient.put self endpoint data).
Proof.
  unfold ApiClient.put.
  apply framed_bind; [apply framed_getAuthHeaders|]. intros h.
  apply framed_bind; [apply framed_fetch|]. intros r.
  apply framed_handleResponse.
Qed.

Lemma framed_delete (self : ApiClient.t) (endpoint : string) :
  framed (ApiClient.delete self endpoint).
Proof.
  unfold ApiClient.delete.
  apply framed_bind; [apply framed_getAuthHeaders|]. intros h.
  apply framed_bind; [apply framed_fetch|]. intros r.
  apply framed_handleResponse.
Qed.

Lemma framed_perform (self : ApiClient.t) (c : client_call) :
  framed (perform self c).
Proof.
  destruct c; cbn [perform];
    [apply framed_get | apply framed_post | apply framed_put | apply framed_delete].
Qed.

(** X1. No retry: an operation of the client sends one request or none,
    and it uses up an answer of the network exactly when it sends one. *)
Theorem at_most_one_request (self : ApiClient.t) (c : client_call) (w : World) :
  let w' := snd (perform self c w) in
  (issued w w' = [] /\ network w' = network w)
  \/ (exists req, issued w w' = [req] /\ network w' = tl (network w)).
Proof.
  cbv zeta.
  destruct (perform_round_trip self c w)
    as [(endpoint & params & _ & _ & ->) | (mk & _ & ->)].
  - left. cbn [snd]. split; [now apply issued_none | reflexivity].
  - destruct (round_trip_full mk w)
      as (r & w' & -> & [(_ & _ & Hi & Hn) | (_ & Hn & _ & h & _ & Hi)]);
      cbn [snd]; [left | right];
      eauto using issued_none, issued_new.
Qed.

(** X2. When the read of the token fails, nothing goes out: the operation
    rejects with the store's error (or, a [get] with a URL that does not
    parse, with the [TypeError] that comes first), no request is sent and
    no answer of the network is used up. *)
Theorem store_failure_blocks_request (self : ApiClient.t) (c : client_call)
    (w : World) :
  hd false (store_faults w) = true ->
  let w' := snd (perform self c w) in
  issued w w' = [] /\ network w' = network w
  /\ (fst (perform self c w) = Throw (StoreError "auth_token")
      \/ fst (perform self c w) = Throw (TypeError "Invalid URL")).
Proof.
  intros Hf. cbv zeta.
  destruct (perform_round_trip self c w)
    as [(endpoint & params & _ & _ & ->) | (mk & _ & ->)].
  - cbn [fst snd]. split; [now apply issued_none | auto].
  - destruct (round_trip_full mk w)
      as (r & w' & -> & [(_ & -> & Hi & Hn) | (Hf' & _)]);
      [cbn [fst snd]; auto using issued_none | congruence].
Qed.

(** X3. [post], [put] and [delete] send, once the token has been read,
    exactly one request: with their verb, to the base URL followed by the
    endpoint as it stands (no parsing, no escaping), with the JSON text of
    the data as body when the data is truthy and without a body when it is
    falsy ([undefined], [null], [false], [0], the empty string); [delete]
    never has a body. *)
Theorem write_request_shape (self : ApiClient.t) (endpoint : string)
    (data : value) (w : World) :
  hd false (store_faults w) = false ->
  let expected verb body req :=
    req_method req = verb
    /\ req_url req = ApiClient.baseURL self ++ endpoint
    /\ req_body req = body
    /\ carries_auth (store w) (req_headers req) in
  let body := if truthy data then JSON_stringify data else None in
  (exists req, issued w (snd (ApiClient.post self endpoint data w)) = [req]
               /\ expected "POST" body req)
  /\ (exists req, issued w (snd (ApiClient.put self endpoint data w)) = [req]
                  /\ expected "PUT" body req)
  /\ (exists req, issued w (snd (ApiClient.delete self endpoint w)) = [req]
                  /\ expected "DELETE" None req).
Proof.
  intros Hf. cbv zeta.
  assert (Hsent : forall mk : Record_ -> Request,
             exists h, carries_auth (store w) h
               /\ issued w (snd (bind ApiClient.getAuthHeaders
                     (fun headers =>
                        bind (fetch (mk headers))
                             (fun response => ApiClient.handleResponse response)) w))
                  = [mk h]).
  { intros mk. destruct (round_trip_full mk w)
      as (r & w' & -> & [(Hf' & _) | (_ & _ & _ & h & Hh & Hi)]); [congruence|].
    exists h. auto using issued_new. }
  split; [|split].
  - destruct (Hsent (fun headers =>
        {| req_url := ApiClient.baseURL self ++ endpoint; req_method := "POST";
           req_headers := headers; req_body := ApiClient.body_of data |}))
      as (h & Hh & Hi).
    eexists. split; [exact Hi|]. cbn. auto.
  - destruct (Hsent (fun headers =>
        {| req_url := ApiClient.baseURL self ++ endpoint; req_method := "PUT";
           req_headers := headers; req_body := ApiClient.body_of data |}))
      as (h & Hh & Hi).
    eexists. split; [exact Hi|]. cbn. auto.
  - destruct (Hsent (fun headers =>
        {| req_url := ApiClient.baseURL self ++ endpoint; req_method := "DELETE";
           req_headers := headers; req_body := None |}))
      as (h & Hh & Hi).
    eexists. split; [exact Hi|]. cbn. auto.
Qed.

(** X4. No operation of the client writes to the credential store or
    touches the session state, whatever the store and the network do. *)
Theorem client_leaves_store_and_session (self : ApiClient.t) (c : client_call)
    (w : World) :
  let w' := snd (perform self c w) in
  store w' = store w /\ authState w' = authState w /\ loading w' = loading w.
Proof.
  cbv zeta. destruct (framed_perform self c w) as (Hs & Ha & Hl & _). auto.
Qed.

(** X5. Once the token has been read (and, for a [get], the URL has
    parsed), the operation settles exactly as [handleResponse] settles the
    answer of the network; a rejected [fetch] is passed on as it is. *)
Theorem client_result (self : ApiClient.t) (c : client_call) (w : World) :
  hd false (store_faults w) = false ->
  (forall endpoint params, c = CallGet endpoint params ->
     URL_parse (ApiClient.baseURL self ++ endpoint) <> None) ->
  fst (perform self c w)
  = match hd Rejects (network w) with
    | Rejects => Throw NetworkError
    | Resolves response => fst (ApiClient.handleResponse response w)
    end.
Proof.
  intros Hf Hurl.
  destruct (perform_round_trip self c w)
    as [(endpoint & params & -> & Hu & _) | (mk & _ & ->)].
  - now destruct (Hurl _ _ eq_refl).
  - destruct (round_trip_full mk w)
      as (r & w' & -> & [(Hf' & _) | (_ & _ & -> & _)]); [congruence|].
    reflexivity.
Qed.

End ClientProperties.

Lemma store_failure_blocks_request_witness :
  let w := Fixture.flaky [true]
             (Fixture.served [Fixture.declined] Fixture.signed_in) in
  let w' := snd (@perform Fixture.platform (@apiClient Fixture.platform)
                   (CallPost "/patients" Fixture.ann) w) in
  issued w w' = [] /\ network w' = network w
  /\ fst (@perform Fixture.platform (@apiClient Fixture.platform)
            (CallPost "/patients" Fixture.ann) w)
     = Throw (StoreError "auth_token").
Proof.
  intros w.
  destruct (@store_failure_blocks_request Fixture.platform
              (@apiClient Fixture.platform) (CallPost "/patients" Fixture.ann) w)
    as (Hi & Hn & Hr); [reflexivity|].
  split; [exact Hi|]. split; [exact Hn|]. vm_compute. reflexivity.
Defined.

Lemma write_request_shape_witness :
  let w := Fixture.served [Fixture.declined] Fixture.signed_in in
  (exists req,
     issued w (snd (@ApiClient.post Fixture.platform (@apiClient Fixture.platform)
                      "/patients" Fixture.ann w)) = [req]
     /\ req_method req = "POST"
     /\ req_url req = "http://192.168.0.187:3000/api/patients"
     /\ req_body req = Some Fixture.ann_text)
  /\ (exists req,
        issued w (snd (@ApiClient.put Fixture.platform (@apiClient Fixture.platform)
                         "/patients/7" (VStr "") w)) = [req]
        /\ req_method req = "PUT" /\ req_body req = None).
Proof.
  intros w. split.
  - destruct (@write_request_shape Fixture.platform (@apiClient Fixture.platform)
                "/patients" Fixture.ann w eq_refl)
      as ((req & Hi & Hm & Hu & Hb & _) & _).
    exists req. repeat split; assumption.
  - destruct (@write_request_shape Fixture.platform (@apiClient Fixture.platform)
                "/patients/7" (VStr "") w eq_refl)
      as (_ & (req & Hi & Hm & _ & Hb & _) & _).
    exists req. repeat split; assumption.
Defined.

Lemma client_result_witness :
  let w := Fixture.served [Fixture.html_response 502] Fixture.signed_in in
  fst (@perform Fixture.platform (@apiClient Fixture.platform)
         (CallGet "/patients" None) w)
  = Throw (JsError (VStr "Request failed with status 502")).
Proof.
  intros w.
  rewrite (@client_result Fixture.platform (@apiClient Fixture.platform)
             (CallGet "/patients" None) w eq_refl).
  - reflexivity.
  - intros endpoint params [= <- <-]. discriminate.
Defined.

(** ** Failure responses with a JSON body *)



(** ** The query survives the trip *)

Lemma urldecode_byte (c : ascii) (t : string) :
  urldecode (urlencode_byte c ++ t) = String c (urldecode t).
Proof. destruct c as [[] [] [] [] [] [] [] []]; reflexivity. Qed.

Lemma split_on_byte (c : ascii) (t : string) :
  split_on "&" (urlencode_byte c ++ t)
  = (urlencode_byte c ++ hd "" (split_on "&" t)) :: tl (split_on "&" t).
Proof. destruct c as [[] [] [] [] [] [] [] []]; reflexivity. Qed.

Lemma cut_at_byte (c : ascii) (t : string) :
  cut_at "=" (urlencode_byte c ++ t)
  = (urlencode_byte c ++ fst (cut_at "=" t), snd (cut_at "=" t)).
Proof. destruct c as [[] [] [] [] [] [] [] []]; reflexivity. Qed.

Lemma append_assoc (a b c : string) : (a ++ b) ++ c = a ++ b ++ c.
Proof.
  induction a as [|x a IH]; [reflexivity|].
  change (String x (((a ++ b) ++ c)) = String x (a ++ b ++ c)). now rewrite IH.
Qed.

(** Decoding undoes encoding. *)
Lemma urldecode_urlencode (s t : string) :
  urldecode (urlencode s ++ t) = s ++ urldecode t.
Proof.
  induction s as [|c s IH]; [reflexivity|].
  change (urlencode (String c s)) with (urlencode_byte c ++ urlencode s).
  rewrite append_assoc, urldecode_byte, IH. reflexivity.
Qed.

Lemma split_on_urlencode (s t : string) :
  split_on "&" (urlencode s ++ t)
  = (urlencode s ++ hd "" (split_on "&" t)) :: tl (split_on "&" t).
Proof.
  induction s as [|c s IH].
  - change (urlencode "" ++ t) with t.
    change (urlencode "" ++ hd "" (split_on "&" t)) with (hd "" (split_on "&" t)).
    destruct t as [|x t]; [reflexivity|]. cbn [split_on].
    destruct (Ascii.eqb x "&"); reflexivity.
  - change (urlencode (String c s)) with (urlencode_byte c ++ urlencode s).
    rewrite !append_assoc, split_on_byte, IH. reflexivity.
Qed.

Lemma cut_at_urlencode (s t : string) :
  cut_at "=" (urlencode s ++ String "=" t) = (urlencode s, Some t).
Proof.
  induction s as [|c s IH]; [reflexivity|].
  change (urlencode (String c s)) with (urlencode_byte c ++ urlencode s).
  rewrite append_assoc, cut_at_byte, IH. reflexivity.
Qed.

(** One pair of the query, as [urlencoded_serialize] writes it. *)
Lemma parse_piece (k v : string) :
  (let piece := urlencode k ++ "=" ++ urlencode v in
   if String.eqb piece "" then []
   else let (name, value) := cut_at "=" piece in
        [(urldecode name, urldecode (default "" value))])
  = [(k, v)].
Proof.
  cbv zeta. change ("=" ++ urlencode v) with (String "=" (urlencode v)).
  rewrite cut_at_urlencode.
  replace (String.eqb (urlencode k ++ String "=" (urlencode v)) "") with false
    by (destruct (urlencode k); reflexivity).
  cbn [default from_option id].
  pose proof (urldecode_urlencode k "") as Hk.
  pose proof (urldecode_urlencode v "") as Hv.
  change (urldecode "") with "" in Hk, Hv.
  rewrite !append_empty in Hk, Hv. now rewrite Hk, Hv.
Qed.

Lemma split_serialize (k v : string) (l : list (string * string)) :
  split_on "&" (urlencoded_serialize ((k, v) :: l))
  = map (fun kv => urlencode (fst kv) ++ "=" ++ urlencode (snd kv)) ((k, v) :: l).
Proof.
  revert k v. induction l as [|[k' v'] l IH]; intros k v.
  - cbn [urlencoded_serialize map fst snd].
    pose proof (split_on_urlencode k (String "=" (urlencode v))) as Hs.
    change ("=" ++ urlencode v) with (String "=" (urlencode v)).
    rewrite Hs. cbn [split_on]. change (Ascii.eqb "=" "&") with false.
    cbv iota zeta. cbn [hd tl].
    pose proof (split_on_urlencode v "") as Hv.
    rewrite append_empty in Hv. rewrite Hv. cbn [split_on hd tl].
    now rewrite append_empty.
  - change (urlencoded_serialize ((k, v) :: (k', v') :: l))
      with (urlencode k ++ String "=" (urlencode v ++ String "&"
              (urlencoded_serialize ((k', v') :: l)))).
    rewrite split_on_urlencode. cbn [split_on].
    change (Ascii.eqb "=" "&") with false. cbv iota zeta.
    rewrite split_on_urlencode. cbn [split_on]. change (Ascii.eqb "&" "&") with true.
    cbv iota. cbn [hd tl]. rewrite IH, append_empty. reflexivity.
Qed.

(** The parser of the URL standard reads a serialised query back as the
    list of pairs it was written from. *)
Lemma urlencoded_round_trip (l : list (string * string)) :
  urlencoded_parse (urlencoded_serialize l) = l.
Proof.
  destruct l as [|[k v] l]; [reflexivity|].
  unfold urlencoded_parse. rewrite split_serialize.
  generalize ((k, v) :: l). clear. intros l.
  induction l as [|[k v] l IH]; [reflexivity|].
  cbn [map flat_map fst snd]. rewrite IH.
  pose proof (parse_piece k v) as Hp. cbv zeta in Hp. rewrite Hp. reflexivity.
Qed.

(** ** What an operation sends *)

Section Sent.
Context `{Platform}.

(** The one request of an operation, if it sends one. *)
Lemma perform_sent (self : ApiClient.t) (c : client_call) (w : World) :
  let w' := snd (perform self c w) in
  requests (trace w') = requests (trace w)
  \/ exists req,
       requests (trace w') = (requests (trace w) ++ [req])%list
       /\ hd false (store_faults w) = false
       /\ carries_auth (store w) (req_headers req)
       /\ sent_by self c req.
Proof.
  cbv zeta.
  assert (Hshape : forall mk : Record_ -> Request,
             (forall h, req_headers (mk h) = h /\ sent_by self c (mk h)) ->
             let w' := snd (bind ApiClient.getAuthHeaders
                        (fun headers =>
                           bind (fetch (mk headers))
                                (fun response => ApiClient.handleResponse response))
                        w) in
             requests (trace w') = requests (trace w)
             \/ exists req,
                  requests (trace w') = (requests (trace w) ++ [req])%list
                  /\ hd false (store_faults w) = false
                  /\ carries_auth (store w) (req_headers req)
                  /\ sent_by self c req).
  { intros mk Hmk. cbv zeta.
    destruct (round_trip_full mk w)
      as (r & w' & -> & [(_ & _ & Hr & _) | (Hf & _ & _ & h & Hh & Hr)]);
      cbn [snd]; [now left|].
    right. exists (mk h). destruct (Hmk h) as (Hhd & Hsent).
    rewrite Hhd. auto. }
  destruct c as [endpoint params | endpoint data | endpoint data | endpoint];
    cbn [perform].
  - unfold ApiClient.get, URL_new.
    destruct (URL_parse (ApiClient.baseURL self ++ endpoint)) as [u|].
    + unfold bind at 1, ret at 1. apply Hshape. intros h. cbn. auto.
    + unfold bind at 1, throw. now left.
  - apply Hshape. intros h. cbn. auto.
  - apply Hshape. intros h. cbn. auto.
  - apply Hshape. intros h. cbn. auto.
Qed.

Lemma call_resource_perform (op : resource_operation) :
  exists c, call_resource op = perform apiClient c
            /\ (is_read op = true -> exists endpoint params, c = CallGet endpoint params)
            /\ (is_read op = false -> forall endpoint params, c <> CallGet endpoint params).
Proof.
  destruct op; cbn [call_resource is_read];
    match goal with
    | |- exists c, ?m = _ /\ _ =>
        let m' := eval cbv beta delta
          [authApi.login authApi.register authApi.getCurrentUser authApi.logout
           authApi.refreshToken patientsApi.getAll patientsApi.getById
           patientsApi.create patientsApi.update patientsApi.delete
           patientsApi.getMedicalHistory patientsApi.getMedications
           appointmentsApi.getAll appointmentsApi.getById appointmentsApi.create
           appointmentsApi.update appointmentsApi.delete
           appointmentsApi.getDoctorAvailability dashboardApi.getStats
           dashboardApi.getRecentActivity usersApi.getAll usersApi.getById
           usersApi.getDoctors usersApi.update usersApi.delete] in m in
        match m' with
        | ApiClient.get _ ?e ?p => exists (CallGet e p)
        | ApiClient.post _ ?e ?d => exists (CallPost e d)
        | ApiClient.put _ ?e ?d => exists (CallPut e d)
        | ApiClient.delete _ ?e => exists (CallDelete e)
        end
    end;
    (split; [reflexivity|]); split; intros Hr; try discriminate Hr; eauto;
    intros ? ?; discriminate.
Qed.

End Sent.

Section ResourceModules.
Context `{Platform}.

(** The one request of a call of the shared client, if it sends one. *)
Lemma client_request (c : client_call) (w : World) :
  let w' := snd (perform apiClient c w) in
  store w' = store w /\ authState w' = authState w
  /\ (issued w w' = []
      \/ exists req,
           issued w w' = [req]
           /\ carries_auth (store w) (req_headers req)
           /\ match c with
              | CallGet endpoint params =>
                  req_method req = "GET"
                  /\ req_body req = None
                  /\ exists u,
                       URL_parse (API_BASE_URL ++ endpoint) = Some u
                       /\ req_url req
                          = with_query (match params with
                                        | Some o => Object_entries o
                                        | None => []
                                        end) u
              | CallPost endpoint data =>
                  req_method req = "POST"
                  /\ req_url req = API_BASE_URL ++ endpoint
                  /\ req_body req = if truthy data then JSON_stringify data
                                    else None
              | CallPut endpoint data =>
                  req_method req = "PUT"
                  /\ req_url req = API_BASE_URL ++ endpoint
                  /\ req_body req = if truthy data then JSON_stringify data
                                    else None
              | CallDelete endpoint =>
                  req_method req = "DELETE"
                  /\ req_url req = API_BASE_URL ++ endpoint
                  /\ req_body req = None
              end).
Proof.
  cbv zeta. destruct (framed_perform apiClient c w) as (Hs & Ha & _).
  split; [exact Hs|]. split; [exact Ha|].
  destruct c as [endpoint params | endpoint data | endpoint data | endpoint].
  - cbn [perform]. unfold ApiClient.get, URL_new.
    change (ApiClient.baseURL apiClient) with API_BASE_URL.
    destruct (URL_parse (API_BASE_URL ++ endpoint)) as [u|].
    2:{ left. unfold bind at 1, throw. now apply issued_none. }
    rewrite (bind_ok (ret u) _ w w u eq_refl).
    match goal with
    | |- context [fetch {| req_url := ?x; req_method := _; req_headers := _;
                           req_body := _ |}] =>
        destruct (round_trip_full
                    (fun headers => {| req_url := x; req_method := "GET";
                                       req_headers := headers; req_body := None |})
                    w) as (r & w' & -> & [(_ & _ & Hr & _) | (_ & _ & _ & h & Hh & Hr)])
    end; cbn [snd]; [left; now apply issued_none|].
    right. eexists. split; [apply issued_new; exact Hr|]. cbn.
    split; [exact Hh|]. split; [reflexivity|]. split; [reflexivity|].
    exists u. split; [reflexivity|].
    destruct params as [o|];
      [apply URL_toString_appended | apply (URL_toString_appended [])].
  - destruct (perform_sent apiClient (CallPost endpoint data) w)
      as [Hr | (req & Hr & _ & Hh & Hsent)]; [left; now apply issued_none|].
    right. exists req. split; [now apply issued_new|]. split; [exact Hh|].
    exact Hsent.
  - destruct (perform_sent apiClient (CallPut endpoint data) w)
      as [Hr | (req & Hr & _ & Hh & Hsent)]; [left; now apply issued_none|].
    right. exists req. split; [now apply issued_new|]. split; [exact Hh|].
    exact Hsent.
  - destruct (perform_sent apiClient (CallDelete endpoint) w)
      as [Hr | (req & Hr & _ & Hh & Hsent)]; [left; now apply issued_none|].
    right. exists req. split; [now apply issued_new|]. split; [exact Hh|].
    exact Hsent.
Qed.

(** X7. Every named operation of the resource modules ([authApi],
    [patientsApi], [appointmentsApi], [dashboardApi], [usersApi]) is one
    call of the client with the verb and the path the table gives for it.
    It leaves store and session alone and sends one request or none. The
    request carries the token of the store and has the verb of the
    operation. A reading operation, which is one whose verb is GET, sends
    no body and requests the URL that base URL and path parse to, with the
    parameters of the operation appended; any other sends its data, when
    truthy, as JSON text to the base URL followed by the path as it
    stands. *)
Theorem resource_requests (op : resource_operation) (w : World) :
  let w' := snd (call_resource op w) in
  (is_read op = true <-> operation_verb op = "GET")
  /\ store w' = store w /\ authState w' = authState w
  /\ (issued w w' = []
      \/ exists req,
           issued w w' = [req]
           /\ carries_auth (store w) (req_headers req)
           /\ req_method req = operation_verb op
           /\ if is_read op
              then req_body req = None
                   /\ exists u,
                        URL_parse (API_BASE_URL ++ operation_path op) = Some u
                        /\ req_url req = with_query (operation_params op) u
              else req_url req = API_BASE_URL ++ operation_path op
                   /\ req_body req
                      = if truthy (operation_data op)
                        then JSON_stringify (operation_data op)
                        else None).
Proof.
  cbv zeta. split.
  { destruct op; cbn [is_read operation_verb]; split; intros Hv;
      first [reflexivity | discriminate Hv]. }
  destruct op;
    try match goal with params : option Record_ |- _ => destruct params end;
    cbn [call_resource operation_verb operation_path operation_data
         operation_params is_read];
    match goal with
    | |- store (snd (?m w)) = _ /\ _ =>
        let m' := eval cbv beta delta
          [authApi.login authApi.register authApi.getCurrentUser authApi.logout
           authApi.refreshToken patientsApi.getAll patientsApi.getById
           patientsApi.create patientsApi.update patientsApi.delete
           patientsApi.getMedicalHistory patientsApi.getMedications
           appointmentsApi.getAll appointmentsApi.getById appointmentsApi.create
           appointmentsApi.update appointmentsApi.delete
           appointmentsApi.getDoctorAvailability dashboardApi.getStats
           dashboardApi.getRecentActivity usersApi.getAll usersApi.getById
           usersApi.getDoctors usersApi.update usersApi.delete] in m in
        match m' with
        | ApiClient.get _ ?e ?p => exact (client_request (CallGet e p) w)
        | ApiClient.post _ ?e ?d => exact (client_request (CallPost e d) w)
        | ApiClient.put _ ?e ?d => exact (client_request (CallPut e d) w)
        | ApiClient.delete _ ?e => exact (client_request (CallDelete e) w)
        end
    end.
Qed.

(** X8. The query of a [get] reads back as the parameters that were
    given: when base URL and endpoint are a URL in normal form and there is
    at least one parameter, the requested URL is that URL, [?] and a query
    which the parser of the URL standard turns back into the entries of
    the parameter object, names and values byte for byte and in their
    order. No [&], [=], space or [%] in a value can add or split a
    parameter. *)
Theorem get_query_round_trip (self : ApiClient.t) (endpoint : string)
    (params : Record_) (w : World) :
  URL_parse (ApiClient.baseURL self ++ endpoint)
  = Some (plain_url (ApiClient.baseURL self ++ endpoint)) ->
  hd false (store_faults w) = false ->
  Object_entries params <> [] ->
  exists req query,
    issued w (snd (ApiClient.get self endpoint (Some params) w)) = [req]
    /\ req_url req = (ApiClient.baseURL self ++ endpoint) ++ "?" ++ query
    /\ urlencoded_parse query = Object_entries params.
Proof.
  intros Hparse Hf Hne.
  unfold ApiClient.get, URL_new. rewrite Hparse. unfold bind at 1, ret at 1.
  match goal with
  | |- context [fetch {| req_url := ?u; req_method := _; req_headers := _;
                         req_body := _ |}] =>
      destruct (round_trip_full
                  (fun headers => {| req_url := u; req_method := "GET";
                                     req_headers := headers; req_body := None |})
                  w) as (r & w' & Hrun & Hsent)
  end.
  rewrite Hrun. cbn [snd].
  destruct Hsent as [(Hf' & _) | (_ & _ & _ & h & _ & Hr)]; [congruence|].
  eexists. exists (urlencoded_serialize (Object_entries params)).
  split; [apply issued_new; exact Hr|]. cbn [req_url].
  split; [|apply urlencoded_round_trip].
  rewrite plain_url_toString. unfold query_suffix.
  now destruct (Object_entries params).
Qed.

End ResourceModules.

Lemma get_query_round_trip_witness :
  let w := Fixture.served [Fixture.declined] Fixture.signed_in in
  exists req,
    issued w (snd (@ApiClient.get Fixture.platform (@apiClient Fixture.platform)
                     "/patients"
                     (Some (rec_literal [("search", "O'Neil & sons = 100%")])) w))
    = [req]
    /\ req_url req
       = "http://192.168.0.187:3000/api/patients?search=O%27Neil+%26+sons+%3D+100%25".
Proof.
  intros w.
  destruct (@get_query_round_trip Fixture.platform (@apiClient Fixture.platform)
              "/patients" (rec_literal [("search", "O'Neil & sons = 100%")]) w)
    as (req & query & Hi & Hu & Hq); [reflexivity | reflexivity | discriminate |].
  exists req. split; [exact Hi|].
  clear Hq Hu. vm_compute in Hi. injection Hi as <-. reflexivity.
Defined.

(** ** The patients screen *)

Lemma bind_ret_run {A : Type} (m : M A) (w : World) :
  bind m (fun a => ret a) w = m w.
Proof. unfold bind, ret. now destruct (m w) as [[a|e] w']. Qed.

Section Patients.
Context `{Platform}.

Lemma get_plain_sent (self : ApiClient.t) (endpoint : string)
    (params : option Record_) (w : World) :
  URL_parse (ApiClient.baseURL self ++ endpoint)
  = Some (plain_url (ApiClient.baseURL self ++ endpoint)) ->
  hd false (store_faults w) = false ->
  exists req,
    issued w (snd (ApiClient.get self endpoint params w)) = [req]
    /\ req_method req = "GET" /\ req_body req = None
    /\ carries_auth (store w) (req_headers req)
    /\ req_url req
       = (ApiClient.baseURL self ++ endpoint)
         ++ query_suffix (match params with
                          | Some o => Object_entries o
                          | None => []
                          end).
Proof.
  intros Hparse Hf.
  unfold ApiClient.get, URL_new. rewrite Hparse. unfold bind at 1, ret at 1.
  match goal with
  | |- context [fetch {| req_url := ?u; req_method := _; req_headers := _;
                         req_body := _ |}] =>
      destruct (round_trip_full
                  (fun headers => {| req_url := u; req_method := "GET";
                                     req_headers := headers; req_body := None |})
                  w) as (r & w' & Hrun & Hsent)
  end.
  rewrite Hrun. cbn [snd].
  destruct Hsent as [(Hf' & _) | (_ & _ & _ & h & Hh & Hr)]; [congruence|].
  eexists. split; [apply issued_new; exact Hr|]. cbn.
  repeat split; try exact (proj1 Hh); try apply (proj2 Hh).
  destruct params as [o|]; [apply plain_url_toString|].
  apply (plain_url_toString _ []).
Qed.

(** X9. What the patients screen asks the server. With an empty search
    box the query requests the patients URL without any query string; with
    a text in it, that URL followed by [?search=] and the text,
    form-urlencoded. Deleting a patient sends one DELETE, without body, to
    the patients URL followed by [/] and the id as it stands. Both carry
    the token of the store. *)
Theorem patients_screen_requests (text : string) (w : World) :
  hd false (store_faults w) = false ->
  (URL_parse (API_BASE_URL ++ "/patients")
   = Some (plain_url (API_BASE_URL ++ "/patients")) ->
   exists req,
     issued w (snd (PatientsScreen.queryFn text w)) = [req]
     /\ req_method req = "GET" /\ req_body req = None
     /\ carries_auth (store w) (req_headers req)
     /\ req_url req
        = (API_BASE_URL ++ "/patients")
          ++ (if String.eqb text "" then "" else "?search=" ++ urlencode text))
  /\ (exists req,
        issued w (snd (PatientsScreen.mutationFn text w)) = [req]
        /\ req_method req = "DELETE" /\ req_body req = None
        /\ carries_auth (store w) (req_headers req)
        /\ req_url req = API_BASE_URL ++ "/patients/" ++ text).
Proof.
  intros Hf. split.
  - intros Hparse. unfold PatientsScreen.queryFn. cbv zeta.
    rewrite bind_ret_run. unfold patientsApi.getAll.
    destruct (get_plain_sent apiClient "/patients"
                (if negb (String.eqb text "")
                 then Some (rec_literal [("search", text)]) else None)
                w Hparse Hf) as (req & Hi & Hm & Hb & Hh & Hu).
    exists req. repeat split; try assumption; try apply Hh.
    rewrite Hu. cbn [apiClient ApiClient.baseURL]. f_equal.
    destruct (String.eqb text ""); reflexivity.
  - unfold PatientsScreen.mutationFn. rewrite bind_ret_run.
    unfold patientsApi.delete.
    destruct (perform_sent apiClient (CallDelete ("/patients/" ++ text)) w)
      as [Hr | (req & Hr & _ & Hh & Hm & Hu & Hb)].
    + exfalso. cbn [perform] in Hr.
      destruct (round_trip_full
                  (fun headers =>
                     {| req_url := ApiClient.baseURL apiClient ++ "/patients/" ++ text;
                        req_method := "DELETE"; req_headers := headers;
                        req_body := None |}) w)
        as (r & w' & Hrun & [(Hf' & _) | (_ & _ & _ & h & _ & Hr')]);
        [congruence|].
      unfold ApiClient.delete in Hr. rewrite Hrun in Hr. cbn [snd] in Hr.
      rewrite Hr' in Hr. apply (f_equal (@length _)) in Hr.
      rewrite length_app in Hr. cbn [length] in Hr. lia.
    + exists req. cbn [perform] in Hr. split; [now apply issued_new|].
      repeat split; try assumption; apply Hh.
Qed.

End Patients.

(** X10. The list the screen shows is the [data] of the envelope whenever
    that is truthy, whatever the envelope's [success] flag says, and the
    empty array in every other case: no result yet, [data] missing, [null]
    or otherwise falsy. It is never [null] or [undefined]. *)
Theorem patients_list (patientsResponse : value) :
  truthy (PatientsScreen.patients patientsResponse) = true
  /\ (patientsResponse = VUndefined \/ patientsResponse = VNull ->
      PatientsScreen.patients patientsResponse = VArr [])
  /\ (forall props,
        patientsResponse = VObj props ->
        PatientsScreen.patients patientsResponse
        = match assoc "data" props with
          | Some data => if truthy data then data else VArr []
          | None => VArr []
          end).
Proof.
  unfold PatientsScreen.patients, js_or. split; [|split].
  - destruct patientsResponse as [ | | b | x | s | items | props];
      try reflexivity.
    cbn [get_prop].
    destruct (truthy (default VUndefined (assoc "data" props))) eqn:Hd;
      [exact Hd | reflexivity].
  - intros [-> | ->]; reflexivity.
  - intros props ->. cbn [get_prop].
    destruct (assoc "data" props) as [data|]; reflexivity.
Qed.

Lemma patients_list_witness :
  PatientsScreen.patients (Fixture.envelope false (VArr [Fixture.ann]))
  = VArr [Fixture.ann]
  /\ PatientsScreen.patients (VObj [("success", VBool true); ("data", VNull)])
     = VArr [].
Proof.
  split.
  - exact (proj2 (proj2 (patients_list _)) _ eq_refl).
  - exact (proj2 (proj2 (patients_list _)) _ eq_refl).
Defined.

Lemma patients_screen_requests_witness :
  let w := Fixture.served [Fixture.declined] Fixture.signed_in in
  (exists req,
     issued w (snd (@PatientsScreen.queryFn Fixture.platform "van der Berg" w))
     = [req]
     /\ req_url req
        = "http://192.168.0.187:3000/api/patients?search=van+der+Berg")
  /\ (exists req,
        issued w (snd (@PatientsScreen.mutationFn Fixture.platform "p-17" w))
        = [req]
        /\ req_method req = "DELETE"
        /\ req_url req = "http://192.168.0.187:3000/api/patients/p-17").
Proof.
  intros w.
  destruct (@patients_screen_requests Fixture.platform "van der Berg" w eq_refl)
    as (Hq & _).
  destruct (@patients_screen_requests Fixture.platform "p-17" w eq_refl)
    as (_ & (req' & Hi' & Hm' & _ & _ & Hu')).
  destruct (Hq eq_refl) as (req & Hi & _ & _ & _ & Hu).
  split; [exists req | exists req']; repeat split; assumption.
Defined.

(** X11. The medications section of a patient card is absent for a patient
    without medications and has at most four lines otherwise: the title,
    the first two medications in their order, and, when there are more, one
    line that counts exactly those that are not listed. *)
Theorem medications_section_lines (meds : list PatientsScreen.Medication) :
  let lines := PatientsScreen.medications_section meds in
  let line med :=
    "• " ++ PatientsScreen.med_name med ++ " - " ++ PatientsScreen.med_dosage med in
  (meds = [] <-> lines = [])
  /\ (length lines <= 4)%nat
  /\ (meds <> [] ->
      lines = app ("Current Medications:" :: map line (firstn 2 meds))
                  match skipn 2 meds with
                  | [] => []
                  | rest => ["+" ++ number_to_string (Z.of_nat (length rest))
                                 ++ " more"]
                  end).
Proof.
  cbv zeta. unfold PatientsScreen.medications_section.
  destruct meds as [|a [|b [|c rest]]].
  - repeat split; try reflexivity; try (cbn; lia). intros Hne. now destruct Hne.
  - repeat split; try discriminate; try reflexivity. cbn. lia.
  - repeat split; try discriminate; try reflexivity. cbn. lia.
  - change (0 <? length (a :: b :: c :: rest))%nat with true.
    change (2 <? length (a :: b :: c :: rest))%nat with true.
    cbv iota. cbn [firstn skipn map length app].
    replace (Z.of_nat (S (S (S (length rest)))) - 2)
      with (Z.of_nat (S (length rest))) by lia.
    repeat split; try discriminate; try reflexivity; lia.
Qed.

Lemma medications_section_lines_witness :
  PatientsScreen.medications_section
    [ {| PatientsScreen.med_name := "Metformin"; PatientsScreen.med_dosage := "500mg" |};
      {| PatientsScreen.med_name := "Lisinopril"; PatientsScreen.med_dosage := "10mg" |};
      {| PatientsScreen.med_name := "Atorvastatin"; PatientsScreen.med_dosage := "20mg" |};
      {| PatientsScreen.med_name := "Aspirin"; PatientsScreen.med_dosage := "81mg" |} ]
  = ["Current Medications:"; "• Metformin - 500mg"; "• Lisinopril - 10mg";
     "+2 more"].
Proof.
  refine (eq_trans (proj2 (proj2 (medications_section_lines _)) _) _);
    [discriminate | reflexivity].
Defined.

(** * Further properties of the session manager *)

(** X12. What [clearAuth] leaves in the store, by the failures of the
    store: both entries gone when neither delete fails; only the token gone
    when the second delete fails; and nothing gone when the first delete
    fails, for then the second is not even attempted. It never rejects and
    always signs the session out. *)
Theorem clearAuth_by_failures (w : World) :
  exists w', AuthProvider.clearAuth w = (Ok tt, w')
    /\ authState w' = signed_out
    /\ store w'
       = (if hd false (store_faults w) then store w
          else if hd false (tl (store_faults w))
               then base.delete "auth_token" (store w)
               else base.delete "user_data" (base.delete "auth_token" (store w)))
    /\ store_faults w'
       = (if hd false (store_faults w) then tl (store_faults w)
          else tl (tl (store_faults w))).
Proof.
  unfold AuthProvider.clearAuth. unfold_js.
  destruct (hd false (store_faults w)); world_simpl;
    [|destruct (hd false (tl (store_faults w)))]; world_simpl;
    eexists; (split; [reflexivity|]); world_simpl; auto.
Qed.

Lemma accepted_data_truthy (response data : value) :
  AuthProvider.success_with_data response = Ok true ->
  get_prop response "data" = Ok data -> truthy data = true.
Proof.
  unfold AuthProvider.success_with_data. intros Hs Hd.
  destruct (get_prop response "success") as [s|]; [|discriminate].
  destruct (truthy s); [|discriminate]. rewrite Hd in Hs. congruence.
Qed.

Section HydrationRuns.
Context `{Platform}.

Lemma hydrated_by_clear (w wx w1 : World) (r : unit) :
  AuthProvider.clearAuth wx = (Ok r, w1) ->
  validation_sent w wx ->
  authState w1 = signed_out ->
  requests (trace w1) = requests (trace wx) ->
  loading (with_loading false w1) = false
  /\ validation_sent w (with_loading false w1)
  /\ hydrated_state w (with_loading false w1).
Proof.
  intros _ Hsent Hs Hr. split; [reflexivity|]. split.
  - unfold validation_sent in *. world_simpl. rewrite Hr. exact Hsent.
  - left. exact Hs.
Qed.

Ltac hydrates_by_clear :=
  match goal with
  | |- context [AuthProvider.clearAuth ?wx] =>
      let w1 := fresh "w" in
      let Hrun := fresh "Hrun" in
      let Hs := fresh "Hs" in
      let Hr := fresh "Hr" in
      destruct (clearAuth_run wx) as (w1 & Hrun & Hs & _ & _ & Hr & _);
      rewrite Hrun; unfold setLoading; cbv beta iota;
      eexists; split; [reflexivity|];
      apply (hydrated_by_clear _ wx w1 tt Hrun); [ | exact Hs | exact Hr]
  end.

Ltac nothing_sent :=
  unfold validation_sent; left;
  repeat match goal with x := _ : World |- _ => subst x end;
  world_simpl; rewrite ?requests_app; cbn [requests];
  rewrite ?app_nil_r; reflexivity.

(** Every run of hydration. *)
Lemma mount_run (w : World) :
  exists w', AuthProvider.mount w = (Ok tt, w')
    /\ loading w' = false /\ validation_sent w w' /\ hydrated_state w w'.
Proof.
  unfold AuthProvider.mount, AuthProvider.loadStoredAuth.
  unfold bind at 1 2. unfold setAuthState, setLoading at 1.
  set (w0 := with_loading true (with_authState signed_out w)).
  unfold try_finally, try_catch.
  destruct (hd false (store_faults w0)) eqn:Hf1.
  { rewrite (bind_throw _ _ _ _ _ (getItemAsync_fail _ _ Hf1)).
    unfold bind at 1, console_error. hydrates_by_clear. nothing_sent. }
  rewrite (bind_ok _ _ _ _ _ (getItemAsync_ok _ _ Hf1)).
  set (w1 := with_store_faults (tl (store_faults w0)) w0).
  destruct (hd false (store_faults w1)) eqn:Hf2.
  { rewrite (bind_throw _ _ _ _ _ (getItemAsync_fail _ _ Hf2)).
    unfold bind at 1, console_error. hydrates_by_clear. nothing_sent. }
  rewrite (bind_ok _ _ _ _ _ (getItemAsync_ok _ _ Hf2)).
  set (w2 := with_store_faults (tl (store_faults w1)) w1).
  assert (Hquiet : exists w', setLoading false w2 = (Ok tt, w')
             /\ loading w' = false /\ validation_sent w w'
             /\ hydrated_state w w').
  { unfold setLoading. eexists. split; [reflexivity|]. split; [reflexivity|].
    split; [nothing_sent | left; reflexivity]. }
  change (store w0) with (store w). change (store w1) with (store w).
  destruct (store w !! "auth_token") as [tok|] eqn:Htok;
    [|unfold ret; exact Hquiet].
  destruct (store w !! "user_data") as [ud|] eqn:Hud;
    [|unfold ret; exact Hquiet].
  destruct (String.eqb_spec tok "") as [-> | Htok'];
    [unfold ret; exact Hquiet|].
  destruct (String.eqb_spec ud "") as [-> | Hud'];
    [unfold ret; exact Hquiet|].
  cbn [negb andb]. clear Hquiet. unfold bind at 1.
  destruct (JSON_parse ud) as [parsed|] eqn:Hparsed.
  2:{ unfold throw. unfold bind at 1, console_error. hydrates_by_clear.
      nothing_sent. }
  unfold ret at 1. unfold try_catch. unfold bind at 1.
  pose proof (framed_get apiClient "/auth/me" None w2) as (Hst & _).
  pose proof (perform_sent apiClient (CallGet "/auth/me" None) w2) as Hsent.
  cbv zeta in Hsent. cbn [perform] in Hsent.
  change (ApiClient.get apiClient "/auth/me" None w2)
    with (authApi.getCurrentUser w2) in Hst, Hsent.
  assert (Hv : validation_sent w (snd (authApi.getCurrentUser w2))).
  { destruct Hsent as [Hr | (req & Hr & _ & Hh & Hm & Hb)]; [now left|].
    right. exists req, tok, ud, parsed. repeat split; try assumption;
      apply Hh. }
  destruct (authApi.getCurrentUser w2) as [[response|e] w3];
    cbn [snd] in Hst, Hv.
  2:{ hydrates_by_clear. exact Hv. }
  unfold bind at 1, lift at 1.
  destruct (AuthProvider.success_with_data response) as [[|]|e] eqn:Hacc;
    [| hydrates_by_clear; exact Hv | hydrates_by_clear; exact Hv].
  unfold bind at 1, lift at 1.
  destruct (get_prop response "data") as [data|e] eqn:Hdata;
    [| hydrates_by_clear; exact Hv].
  unfold setAuthState, setLoading. eexists. split; [reflexivity|].
  split; [reflexivity|]. split; [exact Hv|].
  right. exists tok, data. world_simpl.
  repeat split; try assumption; eauto using accepted_data_truthy.
Qed.

End HydrationRuns.

Section HydrationProperties.
Context `{Platform}.

(** X13. Hydration does not reject: whatever the store and the server
    answer, [loadStoredAuth] resolves, with [loading] false, and it leaves
    the session either signed out or authenticated with a truthy user and
    with exactly the token that the store held, the store being then
    untouched. (This is of the runs in which every awaited call settles: a
    request that stays pending keeps [loading] true.) *)
Theorem hydration_outcome (w : World) :
  exists w', AuthProvider.mount w = (Ok tt, w')
    /\ loading w' = false
    /\ (authState w' = signed_out
        \/ exists tok data,
             store w !! "auth_token" = Some tok /\ tok <> ""
             /\ truthy data = true
             /\ authState w' = {| user := data; token := VStr tok;
                                  isAuthenticated := true |}
             /\ store w' = store w).
Proof.
  destruct (mount_run w) as (w' & Hrun & Hl & _ & Hs).
  exists w'. auto.
Qed.

(** X14. Hydration talks to the server at most once, and only to validate:
    it sends nothing, or one GET without body that carries the token of the
    store; and it sends that request only when token and user entry are
    both there, neither is empty, and the user entry parses as JSON. *)
Theorem hydration_requests (w : World) :
  let w' := snd (AuthProvider.mount w) in
  issued w w' = []
  \/ exists req tok ud parsed,
       issued w w' = [req]
       /\ req_method req = "GET" /\ req_body req = None
       /\ carries_auth (store w) (req_headers req)
       /\ store w !! "auth_token" = Some tok /\ tok <> ""
       /\ store w !! "user_data" = Some ud /\ ud <> ""
       /\ JSON_parse ud = Some parsed.
Proof.
  cbv zeta. destruct (mount_run w) as (w' & -> & _ & Hsent & _). cbn [snd].
  destruct Hsent as [Hr | (req & tok & ud & parsed & Hr & Hrest)].
  - left. now apply issued_none.
  - right. exists req, tok, ud, parsed. split; [now apply issued_new | exact Hrest].
Qed.

(** X15. A successful validation: both entries there and not empty, the
    user entry parses, both reads succeed and [auth.getCurrentUser] comes
    back with a success envelope. Hydration then authenticates the session
    with the user the server returned (not the stored one) and the stored
    token, and writes nothing to the store. *)
Theorem hydration_success (w w2 : World) (tok ud : string)
    (parsed response data : value) :
  store w !! "auth_token" = Some tok -> tok <> "" ->
  store w !! "user_data" = Some ud -> ud <> "" ->
  JSON_parse ud = Some parsed ->
  hd false (store_faults w) = false ->
  hd false (tl (store_faults w)) = false ->
  authApi.getCurrentUser (at_validation w) = (Ok response, w2) ->
  AuthProvider.success_with_data response = Ok true ->
  get_prop response "data" = Ok data ->
  exists w', AuthProvider.mount w = (Ok tt, w')
    /\ authState w' = {| user := data; token := VStr tok;
                         isAuthenticated := true |}
    /\ loading w' = false
    /\ store w' = store w.
Proof.
  intros Htok Htok' Hud Hud' Hparsed Hf1 Hf2 Hcall Hacc Hdata.
  apply (proj2 (String.eqb_neq _ _)) in Htok'.
  apply (proj2 (String.eqb_neq _ _)) in Hud'.
  pose proof (framed_get apiClient "/auth/me" None (at_validation w)) as (Hst & _).
  change (ApiClient.get apiClient "/auth/me" None (at_validation w))
    with (authApi.getCurrentUser (at_validation w)) in Hst.
  rewrite Hcall in Hst. cbn [snd] in Hst.
  unfold AuthProvider.mount, AuthProvider.loadStoredAuth.
  unfold bind at 1 2. unfold setAuthState at 1, setLoading at 1.
  set (w0 := with_loading true (with_authState signed_out w)).
  unfold try_finally, try_catch.
  rewrite (bind_ok _ _ _ _ _ (getItemAsync_ok "auth_token" w0 Hf1)).
  set (w1 := with_store_faults (tl (store_faults w0)) w0).
  rewrite (bind_ok _ _ _ _ _ (getItemAsync_ok "user_data" w1 Hf2)).
  change (store w0) with (store w). change (store w1) with (store w).
  rewrite Htok, Hud, Htok', Hud'. cbn [negb andb].
  change (with_store_faults (tl (store_faults w1)) w1) with (at_validation w).
  unfold bind at 1. rewrite Hparsed. unfold ret at 1. unfold try_catch.
  unfold bind at 1. rewrite Hcall. unfold bind at 1, lift at 1. rewrite Hacc.
  unfold bind at 1, lift at 1. rewrite Hdata.
  unfold setAuthState, setLoading. eexists. split; [reflexivity|].
  world_simpl. auto.
Qed.

(** X16. Entries that are missing or empty are left alone: when both reads
    succeed and the token or the user entry is absent or the empty string,
    hydration leaves the store exactly as it was (a lone entry is not
    removed), does nothing to the store beyond its two reads, sends nothing
    and ends signed out. *)
Theorem hydration_skips_quietly (w : World) :
  hd false (store_faults w) = false ->
  hd false (tl (store_faults w)) = false ->
  (forall tok ud, store w !! "auth_token" = Some tok ->
                  store w !! "user_data" = Some ud -> tok = "" \/ ud = "") ->
  exists w', AuthProvider.mount w = (Ok tt, w')
    /\ store w' = store w
    /\ store_faults w' = tl (tl (store_faults w))
    /\ trace w' = trace w
    /\ authState w' = signed_out /\ loading w' = false.
Proof.
  intros Hf1 Hf2 Hskip.
  unfold AuthProvider.mount, AuthProvider.loadStoredAuth.
  unfold bind at 1 2. unfold setAuthState at 1, setLoading at 1.
  set (w0 := with_loading true (with_authState signed_out w)).
  unfold try_finally, try_catch.
  rewrite (bind_ok _ _ _ _ _ (getItemAsync_ok "auth_token" w0 Hf1)).
  set (w1 := with_store_faults (tl (store_faults w0)) w0).
  rewrite (bind_ok _ _ _ _ _ (getItemAsync_ok "user_data" w1 Hf2)).
  change (store w0) with (store w). change (store w1) with (store w).
  assert (Hdone : exists w',
             setLoading false (with_store_faults (tl (store_faults w1)) w1)
             = (Ok tt, w')
             /\ store w' = store w
             /\ store_faults w' = tl (tl (store_faults w))
             /\ trace w' = trace w
             /\ authState w' = signed_out /\ loading w' = false)
    by (unfold setLoading; eexists; split; [reflexivity|];
        world_simpl; auto).
  destruct (store w !! "auth_token") as [tok|]; [|unfold ret; exact Hdone].
  destruct (store w !! "user_data") as [ud|]; [|unfold ret; exact Hdone].
  destruct (Hskip tok ud eq_refl eq_refl) as [-> | ->];
    [|rewrite andb_false_r]; unfold ret; exact Hdone.
Qed.

End HydrationProperties.

Lemma hydration_success_witness :
  let fresh := VObj [("id", VStr "u1"); ("name", VStr "Ann B.")] in
  let w := Fixture.served [Fixture.json_response 200 (Fixture.envelope true fresh)]
             Fixture.returning in
  let w' := snd (@AuthProvider.mount Fixture.platform w) in
  authState w' = {| user := fresh; token := VStr "t0k3n"; isAuthenticated := true |}
  /\ store w' !! "user_data" = Some Fixture.ann_text.
Proof.
  intros fresh w.
  destruct (@hydration_success Fixture.platform w
              (snd (@authApi.getCurrentUser Fixture.platform (at_validation w)))
              "t0k3n" Fixture.ann_text Fixture.ann
              (Fixture.envelope true fresh) fresh)
    as (w' & Hrun & Hs & _ & Hst);
    try reflexivity; try discriminate.
  rewrite Hrun. cbn [snd]. split; [exact Hs|]. rewrite Hst. reflexivity.
Defined.

Lemma hydration_skips_quietly_witness :
  let w := with_store {[ "auth_token" := "t0k3n" ]} Fixture.blank in
  let w' := snd (@AuthProvider.mount Fixture.platform w) in
  store w' !! "auth_token" = Some "t0k3n" /\ store w' !! "user_data" = None
  /\ authState w' = signed_out.
Proof.
  intros w.
  destruct (@hydration_skips_quietly Fixture.platform w)
    as (w' & Hrun & Hst & _ & _ & Hs & _); [reflexivity | reflexivity | |].
  - intros tok ud _ Hud. vm_compute in Hud. discriminate Hud.
  - rewrite Hrun. cbn [snd]. rewrite Hst. repeat split. exact Hs.
Defined.

(** ** Register, and what a session call returns *)

Section SessionCalls.
Context `{Platform}.

Lemma session_failure (call : M value) (label : string) (w : World) :
  framed call ->
  (exists response w1,
     call w = (Ok response, w1)
     /\ AuthProvider.success_with_data response = Ok false)
  \/ (exists e w1, session_attempt call w = (Throw e, w1)) ->
  exists w',
    try_catch (session_attempt call)
      (fun error => bind (console_error label error) (fun _ => ret false)) w
    = (Ok false, w')
    /\ authState w' = authState w
    /\ (store w' = store w
        \/ exists tok w1,
             session_attempt call w = (Throw (StoreError "user_data"), w1)
             /\ store w' = <["auth_token" := tok]> (store w)).
Proof.
  intros Hcall Hfail.
  destruct (session_attempt_run call w Hcall) as (r & w1 & Hrun & _ & _ & Hcase).
  assert (Hr : r = Ok false \/ exists e, r = Throw e).
  { destruct Hfail as [(response & w2 & Hc & Henv) | (e & w2 & Hthrow)].
    - left. revert Hrun. unfold session_attempt.
      rewrite (bind_ok _ _ _ _ _ Hc). unfold bind, lift. rewrite Henv.
      unfold ret. congruence.
    - right. exists e. congruence. }
  destruct Hr as [-> | (e & ->)].
  - rewrite (try_catch_ok _ _ _ _ _ Hrun). exists w1.
    split; [reflexivity|]. destruct Hcase as (Hst & Hau). auto.
  - rewrite (try_catch_throw _ _ _ _ _ Hrun). unfold bind, console_error, ret.
    eexists. split; [reflexivity|]. world_simpl.
    destruct Hcase as (Hau & [Hst | (-> & _ & tok & Hst)]); auto.
    split; [exact Hau|]. right. exists tok, w1. auto.
Qed.

Lemma session_success (call : M value) (label : string) (w w1 : World)
    (response u : value) (tok text : string) :
  framed call ->
  call w = (Ok response, w1) ->
  grants response u tok ->
  JSON_stringify u = Some text ->
  hd false (store_faults w1) = false ->
  hd false (tl (store_faults w1)) = false ->
  exists w',
    try_catch (session_attempt call)
      (fun error => bind (console_error label error) (fun _ => ret false)) w
    = (Ok true, w')
    /\ store w' = <["user_data" := text]> (<["auth_token" := tok]> (store w))
    /\ authState w' = {| user := u; token := VStr tok; isAuthenticated := true |}.
Proof.
  intros Hframed Hcall Hgrants Htext Hf1 Hf2.
  destruct (grants_accepted _ _ _ Hgrants)
    as (Hacc & data & Hdata & Huser & Htok).
  pose proof (Hframed w) as (Hst & _). rewrite Hcall in Hst. cbn [snd] in Hst.
  unfold session_attempt.
  erewrite try_catch_ok; [eexists; split; [reflexivity|]|].
  2:{ rewrite (bind_ok _ _ _ _ _ Hcall).
      rewrite Hacc, Hdata. unfold bind at 1, lift at 1.
      unfold bind at 1, lift at 1. rewrite Huser.
      unfold bind at 1, lift at 1. rewrite Htok.
      unfold bind at 1, lift at 1.
      rewrite (bind_ok _ _ _ _ _ (setItemAsync_ok _ _ _ Hf1)).
      unfold stringified. rewrite Htext.
      rewrite (bind_ok _ _ _ _ _
                 (setItemAsync_ok _ _ (with_store _ (with_store_faults _ w1)) Hf2)).
      unfold bind, setAuthState, ret. reflexivity. }
  world_simpl. rewrite Hst. split; reflexivity.
Qed.

(** X17. [register] fails like [login]: when the envelope of
    [auth.register] is a failure or anything is thrown inside the call, it
    returns [false] and the session state is what it was; the store is what
    it was too, except when the error is the failure of the write of the
    user entry, which leaves the token written just before it. *)
Theorem register_failure (userData : value) (w : World) :
  (exists response w1,
     authApi.register userData w = (Ok response, w1)
     /\ AuthProvider.success_with_data response = Ok false)
  \/ (exists e w1, AuthProvider.register_attempt userData w = (Throw e, w1)) ->
  exists w', AuthProvider.register userData w = (Ok false, w')
    /\ authState w' = authState w
    /\ (store w' = store w
        \/ exists tok w1,
             AuthProvider.register_attempt userData w
             = (Throw (StoreError "user_data"), w1)
             /\ store w' = <["auth_token" := tok]> (store w)).
Proof.
  intros Hfail.
  exact (session_failure (authApi.register userData) "Registration error:" w
           (framed_post _ _ _) Hfail).
Qed.

(** X18. [register] succeeds like [login]: [auth.register] resolves with a
    success envelope that carries a user and a token, and the two writes
    to the store succeed; then [register] returns [true], the store holds
    that token and the serialised user, and the session is authenticated
    with them. *)
Theorem register_success (userData : value) (w w1 : World)
    (response u : value) (tok text : string) :
  authApi.register userData w = (Ok response, w1) ->
  grants response u tok ->
  JSON_stringify u = Some text ->
  hd false (store_faults w1) = false ->
  hd false (tl (store_faults w1)) = false ->
  exists w', AuthProvider.register userData w = (Ok true, w')
    /\ store w' = <["user_data" := text]> (<["auth_token" := tok]> (store w))
    /\ authState w' = {| user := u; token := VStr tok; isAuthenticated := true |}.
Proof.
  intros Hcall Hgrants Htext Hf1 Hf2.
  exact (session_success (authApi.register userData) "Registration error:"
           w w1 response u tok text (framed_post _ _ _) Hcall Hgrants Htext
           Hf1 Hf2).
Qed.

Lemma session_result (call : M value) (label : string) (w : World) :
  framed call ->
  exists b w',
    try_catch (session_attempt call)
      (fun error => bind (console_error label error) (fun _ => ret false)) w
    = (Ok b, w')
    /\ loading w' = loading w
    /\ if b
       then exists u t tok text,
              store w' !! "auth_token" = Some tok
              /\ store w' !! "user_data" = Some text
              /\ authState w' = {| user := u; token := t;
                                   isAuthenticated := true |}
              /\ SecureStorage.stored_text t = Some tok
              /\ (forall s, t = VStr s -> tok = s)
       else authState w' = authState w.
Proof.
  intros Hcall.
  destruct (session_attempt_run call w Hcall) as (r & w1 & Hrun & Hl & _ & Hcase).
  unfold try_catch. rewrite Hrun. destruct r as [[|]|e].
  - exists true, w1. split; [reflexivity|]. split; [exact Hl|].
    destruct Hcase as (u & t & tok & text & Hst & Hau & Htok).
    exists u, t, tok, text. rewrite Hst.
    split; [|split; [|split; [exact Hau|split; [exact Htok|]]]].
    + rewrite lookup_insert_ne by discriminate. apply lookup_insert_eq.
    + apply lookup_insert_eq.
    + intros s ->. cbn [SecureStorage.stored_text] in Htok. congruence.
  - exists false, w1. split; [reflexivity|]. split; [exact Hl|]. apply Hcase.
  - unfold bind, console_error, ret. exists false. eexists.
    split; [reflexivity|]. world_simpl. split; [exact Hl|]. apply Hcase.
Qed.

(** X19. [login] and [register] do not reject: whatever the server and
    the store answer, they resolve with a boolean, and they leave [loading]
    alone. When the answer is [true] the session is authenticated, both
    entries are in the store, and the token entry holds what the store
    keeps for the token of the session: that token itself when it is a
    string. When the answer is [false] the session state is what it
    was. *)
Theorem session_calls_resolve (email password : string) (userData : value)
    (w : World) :
  let outcome (run : result bool * World) :=
    exists b w', run = (Ok b, w')
      /\ loading w' = loading w
      /\ if b
         then exists u t tok text,
                store w' !! "auth_token" = Some tok
                /\ store w' !! "user_data" = Some text
                /\ authState w' = {| user := u; token := t;
                                     isAuthenticated := true |}
                /\ SecureStorage.stored_text t = Some tok
                /\ (forall s, t = VStr s -> tok = s)
         else authState w' = authState w in
  outcome (AuthProvider.login email password w)
  /\ outcome (AuthProvider.register userData w).
Proof.
  cbv zeta. split.
  - exact (session_result (authApi.login email password) "Login error:" w
             (framed_post _ _ _)).
  - exact (session_result (authApi.register userData) "Registration error:" w
             (framed_post _ _ _)).
Qed.

End SessionCalls.

Lemma register_failure_witness :
  let w := Fixture.served [Fixture.declined] Fixture.blank in
  let w' := snd (@AuthProvider.register Fixture.platform Fixture.ann w) in
  fst (@AuthProvider.register Fixture.platform Fixture.ann w) = Ok false
  /\ authState w' = authState w.
Proof.
  intros w.
  destruct (@register_failure Fixture.platform Fixture.ann w)
    as (w' & Hrun & Hau & _).
  - left. exists (Fixture.envelope false VNull).
    exists (snd (@authApi.register Fixture.platform Fixture.ann w)).
    split; vm_compute; reflexivity.
  - rewrite Hrun. cbn [fst snd]. auto.
Defined.

Lemma register_success_witness :
  let w := Fixture.served [Fixture.accepted] Fixture.blank in
  let w' := snd (@AuthProvider.register Fixture.platform Fixture.ann w) in
  fst (@AuthProvider.register Fixture.platform Fixture.ann w) = Ok true
  /\ store w' !! "auth_token" = Some "t0k3n"
  /\ isAuthenticated (authState w') = true.
Proof.
  intros w.
  destruct (@register_success Fixture.platform Fixture.ann w
              (snd (@authApi.register Fixture.platform Fixture.ann w))
              (Fixture.envelope true (Fixture.session_data "t0k3n"))
              Fixture.ann "t0k3n" Fixture.ann_text)
    as (w' & Hrun & Hst & Hau);
    [vm_compute; reflexivity | | reflexivity | reflexivity | reflexivity | ].
  - do 2 eexists. repeat split; reflexivity.
  - rewrite Hrun. cbn [fst snd]. rewrite Hst, Hau.
    repeat split; vm_compute; reflexivity.
Defined.

(** ** What the session calls send *)

Section SessionRequests.
Context `{Platform}.

(** After its first call a [try] block only talks to the store. *)
Lemma session_attempt_requests (call : M value) (w : World) :
  requests (trace (snd (session_attempt call w)))
  = requests (trace (snd (call w))).
Proof.
  unfold session_attempt. unfold bind at 1.
  destruct (call w) as [[response|e] w1]; cbn [snd]; [|reflexivity].
  unfold bind at 1, lift at 1.
  destruct (AuthProvider.success_with_data response) as [[|]|e];
    [|reflexivity|reflexivity].
  unfold bind at 1, lift at 1.
  destruct (get_prop response "data") as [data|e]; [|reflexivity].
  unfold bind at 1, lift at 1.
  destruct (get_prop data "user") as [u|e]; [|reflexivity].
  unfold bind at 1, lift at 1.
  destruct (get_prop data "token") as [t|e]; [|reflexivity].
  destruct (setItemAsync_run "auth_token" t w1)
    as (w2 & (_ & _ & _ & Hr2) & [(tok & _ & Hrun2 & _) | (Hrun2 & _)]).
  2:{ rewrite (bind_throw _ _ _ _ _ Hrun2). exact Hr2. }
  rewrite (bind_ok _ _ _ _ _ Hrun2).
  destruct (setItemAsync_run "user_data" (stringified u) w2)
    as (w3 & (_ & _ & _ & Hr3) & [(text & _ & Hrun3 & _) | (Hrun3 & _)]).
  2:{ rewrite (bind_throw _ _ _ _ _ Hrun3). cbn [snd]. congruence. }
  rewrite (bind_ok _ _ _ _ _ Hrun3). unfold bind, setAuthState, ret.
  cbn [snd]. world_simpl. congruence.
Qed.

Lemma session_requests (call : M value) (label : string) (w : World) :
  requests (trace (snd (try_catch (session_attempt call)
                          (fun error => bind (console_error label error)
                                             (fun _ => ret false)) w)))
  = requests (trace (snd (call w))).
Proof.
  rewrite <- session_attempt_requests. unfold try_catch.
  destruct (session_attempt call w) as [[b|e] w1]; [reflexivity|].
  unfold bind, console_error, ret. cbn [snd]. rewrite requests_log.
  apply app_nil_r.
Qed.

(** The one request of a [post], when the token has been read. *)
Lemma post_sent (endpoint : string) (data : value) (w : World) :
  let w' := snd (ApiClient.post apiClient endpoint data w) in
  (hd false (store_faults w) = true
   /\ requests (trace w') = requests (trace w))
  \/ (hd false (store_faults w) = false
      /\ exists h, carries_auth (store w) h
           /\ requests (trace w')
              = (requests (trace w)
                 ++ [{| req_url := API_BASE_URL ++ endpoint; req_method := "POST";
                        req_headers := h;
                        req_body := if truthy data then JSON_stringify data
                                    else None |}])%list).
Proof.
  cbv zeta. unfold ApiClient.post.
  destruct (round_trip_full
              (fun headers =>
                 {| req_url := ApiClient.baseURL apiClient ++ endpoint;
                    req_method := "POST"; req_headers := headers;
                    req_body := ApiClient.body_of data |}) w)
    as (r & w' & -> & [(Hf & _ & Hr & _) | (Hf & _ & _ & h & Hh & Hr)]);
    cbn [snd]; [left; auto | right]. split; [exact Hf|]. exists h. auto.
Qed.

(** X20. [login] sends one request and no second one: once the token has
    been read, a POST to the login URL whose body is the JSON text of
    [{email, password}], with whatever token the store still holds as
    bearer; and nothing at all when that read fails. *)
Theorem login_request (email password : string) (w : World) :
  let w' := snd (AuthProvider.login email password w) in
  (hd false (store_faults w) = true -> issued w w' = [])
  /\ (hd false (store_faults w) = false ->
      exists req,
        issued w w' = [req]
        /\ req_method req = "POST"
        /\ req_url req = API_BASE_URL ++ "/auth/login"
        /\ req_body req
           = JSON_stringify (VObj [("email", VStr email);
                                   ("password", VStr password)])
        /\ carries_auth (store w) (req_headers req)).
Proof.
  cbv zeta.
  pose proof (session_requests (authApi.login email password) "Login error:" w)
    as Hr.
  rewrite <- login_attempt_shape in Hr.
  fold (AuthProvider.login email password) in Hr.
  destruct (post_sent "/auth/login"
              (VObj [("email", VStr email); ("password", VStr password)]) w)
    as [(Hf & Hp) | (Hf & h & Hh & Hp)];
    fold (authApi.login email password) in Hp; rewrite <- Hr in Hp.
  - split; [intros _; now apply issued_none | congruence].
  - split; [congruence|]. intros _. eexists.
    split; [apply issued_new; exact Hp|]. cbn. auto.
Qed.

(** Every run of [logout]. *)
Lemma logout_run (w : World) :
  exists w', AuthProvider.logout w = (Ok tt, w')
    /\ (delete_failed_since w w' = false -> store w' !! "auth_token" = None)
    /\ requests (trace w') = requests (trace (snd (authApi.logout w))).
Proof.
  unfold AuthProvider.logout, try_finally, try_catch, bind.
  pose proof (growing_post apiClient "/auth/logout" VUndefined w) as Hg.
  change (ApiClient.post _ _ _ w) with (authApi.logout w) in Hg.
  destruct (authApi.logout w) as [[v|e] w1]; cbn [snd] in *.
  - unfold ret. destruct (clearAuth_trace w1) as (w' & t & -> & Ht & _ & Hr & Hst).
    exists w'. split; [reflexivity|]. split; [|exact Hr]. intros Hd.
    exact (proj1 (cleared_since w w1 w' t Hg Ht Hst Hd)).
  - unfold console_error.
    destruct (clearAuth_trace (log (EvConsoleError "Logout API error:" e) w1))
      as (w' & t & -> & Ht & _ & Hr & Hst).
    exists w'. split; [reflexivity|]. split.
    + intros Hd.
      exact (proj1 (cleared_since w _ w' t (grows_log _ _ _ Hg) Ht Hst Hd)).
    + rewrite Hr, requests_log. apply app_nil_r.
Qed.

(** X21. [logout] tells the server before it forgets the token: once the
    token has been read it sends exactly one request, a POST without body
    to the logout URL that still carries the stored token as bearer, and
    clears afterwards; when that read fails it sends nothing and clears all
    the same. *)
Theorem logout_request (w : World) :
  let w' := snd (AuthProvider.logout w) in
  authState w' = signed_out
  /\ (hd false (store_faults w) = true -> issued w w' = [])
  /\ (hd false (store_faults w) = false ->
      exists req,
        issued w w' = [req]
        /\ req_method req = "POST"
        /\ req_url req = API_BASE_URL ++ "/auth/logout"
        /\ req_body req = None
        /\ carries_auth (store w) (req_headers req)).
Proof.
  cbv zeta. destruct (logout_run w) as (w' & Hrun & _ & Hr).
  assert (Hs : authState (snd (AuthProvider.logout w)) = signed_out).
  { unfold AuthProvider.logout, try_finally, try_catch, bind.
    destruct (authApi.logout w) as [[v|e] w1]; unfold ret, console_error;
      match goal with
      | |- context [AuthProvider.clearAuth ?wx] =>
          destruct (clearAuth_run wx) as (w2 & -> & Hs & _)
      end; exact Hs. }
  split; [exact Hs|]. rewrite Hrun. cbn [snd].
  destruct (post_sent "/auth/logout" VUndefined w)
    as [(Hf & Hp) | (Hf & h & Hh & Hp)];
    fold (authApi.logout w) in Hp; rewrite <- Hr in Hp.
  - split; [intros _; now apply issued_none | congruence].
  - split; [congruence|]. intros _. eexists.
    split; [apply issued_new; exact Hp|]. cbn. auto.
Qed.

End SessionRequests.

Lemma login_request_witness :
  let w := Fixture.served [Fixture.declined] Fixture.returning in
  exists req,
    issued w (snd (@AuthProvider.login Fixture.platform "ann@clinic.test" "secret" w))
    = [req]
    /\ req_url req = "http://192.168.0.187:3000/api/auth/login"
    /\ assoc "Authorization" (req_headers req) = Some "Bearer t0k3n".
Proof.
  intros w.
  destruct (@login_request Fixture.platform "ann@clinic.test" "secret" w)
    as (_ & Hsent).
  destruct (Hsent eq_refl) as (req & Hi & _ & Hu & _ & _ & Hauth).
  exists req. split; [exact Hi|]. split; [exact Hu|].
  apply Hauth. exists "t0k3n". repeat split. discriminate.
Defined.

Lemma logout_request_witness :
  let w := Fixture.served [Fixture.declined] Fixture.signed_in in
  exists req,
    issued w (snd (@AuthProvider.logout Fixture.platform w)) = [req]
    /\ req_url req = "http://192.168.0.187:3000/api/auth/logout"
    /\ assoc "Authorization" (req_headers req) = Some "Bearer t0k3n".
Proof.
  intros w.
  destruct (@logout_request Fixture.platform w) as (_ & _ & Hsent).
  destruct (Hsent eq_refl) as (req & Hi & _ & Hu & _ & _ & Hauth).
  exists req. split; [exact Hi|]. split; [exact Hu|].
  apply Hauth. exists "t0k3n". repeat split. discriminate.
Defined.

(** ** The token is read through *)

Lemma carries_auth_lookup (st : gmap string string) (h : Record_) :
  carries_auth st h ->
  assoc "Authorization" h
  = match st !! "auth_token" with
    | Some tok => if String.eqb tok "" then None else Some ("Bearer " ++ tok)
    | None => None
    end.
Proof.
  intros (_ & Hauth).
  destruct (st !! "auth_token") as [tok|] eqn:Hst.
  - destruct (String.eqb_spec tok "") as [-> | Hne].
    + destruct (assoc "Authorization" h) as [v|]; [|reflexivity].
      destruct (proj1 (Hauth v) eq_refl) as (tok' & [= <-] & Hne & _).
      congruence.
    + apply Hauth. eauto.
  - destruct (assoc "Authorization" h) as [v|]; [|reflexivity].
    destruct (proj1 (Hauth v) eq_refl) as (tok' & [=] & _).
Qed.

Section ReadThrough.
Context `{Platform}.

Lemma perform_headers (self : ApiClient.t) (c : client_call) (w : World)
    (req : Request) :
  In req (issued w (snd (perform self c w))) ->
  carries_auth (store w) (req_headers req).
Proof.
  destruct (perform_sent self c w) as [Hr | (req' & Hr & _ & Hh & _)].
  - rewrite (issued_none _ _ Hr). intros [].
  - rewrite (issued_new _ _ _ Hr). intros [<- | []]. exact Hh.
Qed.

(** X22. The client does not cache the token. After a [login] that
    returned [true], every request of every operation carries as bearer
    what the store keeps for the token the session now holds, which is
    that token itself when it is a string (and, should it be the empty
    string, no authorization at all). *)
Theorem login_then_request (email password : string) (w : World) :
  fst (AuthProvider.login email password w) = Ok true ->
  let w1 := snd (AuthProvider.login email password w) in
  exists tok,
    SecureStorage.stored_text (token (authState w1)) = Some tok
    /\ (forall s, token (authState w1) = VStr s -> tok = s)
    /\ forall self c req,
         In req (issued w1 (snd (perform self c w1))) ->
         assoc "Authorization" (req_headers req)
         = if String.eqb tok "" then None else Some ("Bearer " ++ tok).
Proof.
  intros Htrue. cbv zeta.
  destruct (session_result (authApi.login email password) "Login error:" w
              (framed_post _ _ _)) as (b & w1 & Hrun & _ & Hcase).
  rewrite <- login_attempt_shape in Hrun.
  fold (AuthProvider.login email password) in Hrun.
  rewrite Hrun in *. cbn [fst snd] in *. injection Htrue as ->.
  destruct Hcase as (u & t & tok & text & Htok & _ & Hau & Hkept & Hstr).
  exists tok. rewrite Hau. cbn [token].
  split; [exact Hkept|]. split; [exact Hstr|]. intros self c req Hin.
  rewrite (carries_auth_lookup _ _ (perform_headers self c w1 req Hin)).
  now rewrite Htok.
Qed.

(** X23. After a [logout] during which no delete of the store has failed,
    whatever happened in earlier calls, no request of any operation
    carries an [Authorization] header. *)
Theorem logout_then_request (w : World) :
  let w1 := snd (AuthProvider.logout w) in
  delete_failed_since w w1 = false ->
  forall self c req,
    In req (issued w1 (snd (perform self c w1))) ->
    assoc "Authorization" (req_headers req) = None.
Proof.
  cbv zeta. destruct (logout_run w) as (w1 & -> & Hgone & _). cbn [snd].
  intros Hd self c req Hin.
  rewrite (carries_auth_lookup _ _ (perform_headers self c w1 req Hin)).
  now rewrite (Hgone Hd).
Qed.

End ReadThrough.

Lemma login_then_request_witness :
  let w := Fixture.served [Fixture.accepted; Fixture.declined] Fixture.blank in
  let w1 := snd (@AuthProvider.login Fixture.platform "ann@clinic.test" "secret" w) in
  map (fun req => assoc "Authorization" (req_headers req))
      (issued w1 (snd (@perform Fixture.platform (@apiClient Fixture.platform)
                         (CallGet "/patients" None) w1)))
  = [Some "Bearer t0k3n"].
Proof.
  intros w w1.
  destruct (@login_then_request Fixture.platform "ann@clinic.test" "secret" w)
    as (tok & _ & Hstr & Hnext); [vm_compute; reflexivity|].
  fold w1 in Hstr, Hnext.
  assert (Htok' : tok = "t0k3n") by (apply Hstr; vm_compute; reflexivity).
  subst tok.
  assert (Hi : exists req,
             issued w1 (snd (@perform Fixture.platform (@apiClient Fixture.platform)
                               (CallGet "/patients" None) w1)) = [req])
    by (eexists; vm_compute; reflexivity).
  destruct Hi as (req & Hi). rewrite Hi. cbn [map]. f_equal.
  apply (Hnext (@apiClient Fixture.platform) (CallGet "/patients" None) req).
  rewrite Hi. now left.
Defined.

(** A second logout, after one whose deletes failed. *)
Lemma logout_then_request_witness :
  let w := Fixture.flaky [false; true]
             (Fixture.served [Fixture.declined; Fixture.declined; Fixture.declined]
                Fixture.signed_in) in
  let w0 := snd (@AuthProvider.logout Fixture.platform w) in
  let w1 := snd (@AuthProvider.logout Fixture.platform w0) in
  store w0 !! "auth_token" = Some "t0k3n"
  /\ map (fun req => assoc "Authorization" (req_headers req))
         (issued w1 (snd (@perform Fixture.platform (@apiClient Fixture.platform)
                            (CallGet "/patients" None) w1)))
     = [None].
Proof.
  intros w w0 w1. split; [vm_compute; reflexivity|].
  pose proof (@logout_then_request Fixture.platform w0) as Hnext.
  cbv zeta in Hnext. fold w1 in Hnext.
  specialize (Hnext ltac:(vm_compute; reflexivity)).
  assert (Hi : exists req,
             issued w1 (snd (@perform Fixture.platform (@apiClient Fixture.platform)
                               (CallGet "/patients" None) w1)) = [req])
    by (eexists; vm_compute; reflexivity).
  destruct Hi as (req & Hi). rewrite Hi. cbn [map]. f_equal.
  apply (Hnext (@apiClient Fixture.platform) (CallGet "/patients" None) req).
  rewrite Hi. now left.
Defined.
